(** * Orbit camera of [shared/camera.js]

    A shallow embedding of the camera state, its pose-mutating methods, and
    the DOM event handlers that drive it.

    Numbers.  A JavaScript [Number] is modelled as a real number: [Math.max],
    [Math.min], [Math.sin], [Math.cos], [Math.tan] and [Math.PI] are the
    functions and the constant of the real line, and the arithmetic
    operators are exact.  Rounding of binary64 arithmetic is therefore not
    part of the model: an equation below that involves an arithmetic result
    is an equation between real numbers, and the statements about ranges,
    order, clamping, calls and control flow do not depend on it.

    Booleans.  A boolean used as an operand of [-] is coerced to 0 or 1, as
    JavaScript does ([b2n]). *)

From Stdlib Require Import PrimFloat.
From Stdlib Require Import Reals Lra List Bool String ZArith.
Import ListNotations.

Local Open Scope R_scope.

(** ** Numeric helpers (lines 1-31) *)

(** [const clamp = function (x, min, max) { return Math.max(min, Math.min(max, x)) }] *)
Definition clamp (x min max : R) : R := Rmax min (Rmin max x).

(** [const toRad = function (x) { return x * Math.PI / 180; }] *)
Definition toRad (x : R) : R := x * PI / 180.

(** [const toDeg = function (x) { return x / Math.PI * 180; }] *)
Definition toDeg (x : R) : R := x / PI * 180.

Definition ROT_SPEED : R := 0.005.
Definition PAN_SPEED : R := 0.001.
Definition ZOOM_SPEED : R := 0.0005.
Definition FOV_SPEED : R := 0.0002.

Definition KEY_ROT_SPEED : R := 3 / 15.
Definition KEY_PAN_SPEED : R := 5 / 15.
Definition KEY_ZOOM_SPEED : R := 0.01 / 15.
Definition KEY_FOV_SPEED : R := 0.005 / 15.

Definition minFOV : R := toRad 1.
Definition maxFOV : R := toRad 120.

(** Coercion of a boolean operand of an arithmetic operator. *)
Definition b2n (b : bool) : R := if b then 1 else 0.

(** ** The vector library

    [vec3] is an external library whose functions return a fresh vector.
    Its componentwise operations are written out; [normalize], whose
    treatment of short vectors is the library's own business, is a
    parameter of the development. *)

Record vec3 : Type := mkVec3 { vx : R; vy : R; vz : R }.

Module Vec3.

Definition fromValues (x y z : R) : vec3 := mkVec3 x y z.
Definition create : vec3 := mkVec3 0 0 0.
Definition clone (v : vec3) : vec3 := mkVec3 (vx v) (vy v) (vz v).

Definition add (a b : vec3) : vec3 :=
  mkVec3 (vx a + vx b) (vy a + vy b) (vz a + vz b).

Definition subtract (a b : vec3) : vec3 :=
  mkVec3 (vx a - vx b) (vy a - vy b) (vz a - vz b).

Definition scale (v : vec3) (k : R) : vec3 :=
  mkVec3 (vx v * k) (vy v * k) (vz v * k).

(** [scaleAndAdd(a, b, k)] is [a + b * k]. *)
Definition scaleAndAdd (a b : vec3) (k : R) : vec3 :=
  mkVec3 (vx a + vx b * k) (vy a + vy b * k) (vz a + vz b * k).

Definition cross (a b : vec3) : vec3 :=
  mkVec3 (vy a * vz b - vz a * vy b)
         (vz a * vx b - vx a * vz b)
         (vx a * vy b - vy a * vx b).

(** Euclidean length. *)
Definition length (v : vec3) : R :=
  sqrt (vx v * vx v + vy v * vy v + vz v * vz v).

(** Modelled from the spec: [normalize] of the vector library, which is not
    part of the source.  The spec names the operation and no more; this is
    the mathematical normalisation [v / |v|], over the reals and without
    the library's treatment of short vectors.  It is used only to
    instantiate the [normalize] parameter below at concrete inputs; no
    general statement rests on it. *)
Definition normalizeExact (v : vec3) : vec3 := scale v (/ length v).

End Vec3.

(** ** Configuration (lines 33-43) *)

Record Defaults : Type := mkDefaults {
  d_target : vec3;
  d_distance : R;
  d_position : vec3;
  d_azimuth : R;
  d_elevation : R;
  d_fov : R;
  d_near : R;
  d_far : R;
  d_invertMatrix : bool
}.

Definition defaults : Defaults := {|
  d_target := Vec3.fromValues 0 0 0;
  d_distance := 1;
  d_position := Vec3.create;
  d_azimuth := 0;
  d_elevation := 0;
  d_fov := toRad 60;
  d_near := 0.1;
  d_far := 100;
  d_invertMatrix := true
|}.

(** ** Camera state (lines 46-62) *)

Record Camera : Type := mkCamera {
  target : vec3;
  distance : R;
  position : vec3;
  azimuth : R;
  elevation : R;
  fov : R;
  near : R;
  far : R;
  worldUp : vec3;
  invertMatrix : bool
}.

Definition set_target (v : vec3) (c : Camera) : Camera :=
  mkCamera v (distance c) (position c) (azimuth c) (elevation c)
           (fov c) (near c) (far c) (worldUp c) (invertMatrix c).

Definition set_distance (x : R) (c : Camera) : Camera :=
  mkCamera (target c) x (position c) (azimuth c) (elevation c)
           (fov c) (near c) (far c) (worldUp c) (invertMatrix c).

Definition set_position (v : vec3) (c : Camera) : Camera :=
  mkCamera (target c) (distance c) v (azimuth c) (elevation c)
           (fov c) (near c) (far c) (worldUp c) (invertMatrix c).

Definition set_azimuth (x : R) (c : Camera) : Camera :=
  mkCamera (target c) (distance c) (position c) x (elevation c)
           (fov c) (near c) (far c) (worldUp c) (invertMatrix c).

Definition set_elevation (x : R) (c : Camera) : Camera :=
  mkCamera (target c) (distance c) (position c) (azimuth c) x
           (fov c) (near c) (far c) (worldUp c) (invertMatrix c).

Definition set_fov (x : R) (c : Camera) : Camera :=
  mkCamera (target c) (distance c) (position c) (azimuth c) (elevation c)
           x (near c) (far c) (worldUp c) (invertMatrix c).

(** The direction [[x, y, z]] computed by [updatePosition] (lines 87-89). *)
Definition sphericalDirection (az el : R) : vec3 :=
  mkVec3 (cos el * sin az) (sin el) (cos el * cos az).

(** [updatePosition] (lines 86-100).  After the assignment to [position]
    the method calls [updateMatrix] and the [gui.io] read-outs; these write
    to the renderer and to the display only and read nothing back into the
    camera, so they leave the state below as it is. *)
Definition updatePosition (c : Camera) : Camera :=
  let x := cos (elevation c) * sin (azimuth c) in
  let y := sin (elevation c) in
  let z := cos (elevation c) * cos (azimuth c) in
  set_position (Vec3.scaleAndAdd (target c) (mkVec3 x y z) (distance c)) c.

(** [constructor(defaults)] (lines 47-62): the parameter shadows the module
    constant of the same name. *)
Definition Camera_new (d : Defaults) : Camera :=
  updatePosition
    {| target := Vec3.clone (d_target d);
       distance := d_distance d;
       position := Vec3.clone (d_position d);
       azimuth := d_azimuth d;
       elevation := d_elevation d;
       fov := d_fov d;
       near := d_near d;
       far := d_far d;
       worldUp := Vec3.fromValues 0 1 0;
       invertMatrix := d_invertMatrix d |}.

(** [orbit(dx, dy)] (lines 102-109). *)
Definition orbit (dx dy : R) (c : Camera) : Camera :=
  let c := set_azimuth (azimuth c - dx * ROT_SPEED) c in
  let c := set_elevation (elevation c + dy * ROT_SPEED) c in
  let limit := PI / 2 - 0.01 in
  let c := set_elevation (clamp (elevation c) (- limit) limit) c in
  updatePosition c.

(** [zoom(delta)] (lines 126-129). *)
Definition zoom (delta : R) (c : Camera) : Camera :=
  let c := set_distance (clamp ((delta + 1) * distance c) (near c) (far c)) c in
  updatePosition c.

(** [adjFOV(delta)] (lines 131-134). *)
Definition adjFOV (delta : R) (c : Camera) : Camera :=
  let c := set_fov (clamp (fov c + delta) minFOV maxFOV) c in
  updatePosition c.

(** [adjFOVWithoutZoom(delta)] (lines 136-141). *)
Definition adjFOVWithoutZoom (delta : R) (c : Camera) : Camera :=
  let initial := tan (fov c / 2) * distance c in
  let c := set_fov (clamp (fov c + delta) minFOV maxFOV) c in
  let c := set_distance (initial / tan (fov c / 2)) c in
  updatePosition c.

(** [reset(e = { altKey: false, ctrlKey: false })] (lines 143-152).  The
    method reads the two modifier properties of its argument and nothing
    else; they are its parameters here.  [defaults] is the module
    constant. *)
Definition reset (altKey ctrlKey : bool) (c : Camera) : Camera :=
  let c := set_fov (d_fov defaults) c in
  let c := if negb ctrlKey then set_distance (d_distance defaults) c else c in
  let c :=
    if negb altKey && negb ctrlKey then
      let c := set_azimuth (d_azimuth defaults) c in
      let c := set_elevation (d_elevation defaults) c in
      set_target (Vec3.clone (d_target defaults)) c
    else c in
  updatePosition c.

Section WithNormalize.

(** [vec3.normalize] of the vector library. *)
Variable normalize : vec3 -> vec3.

(** The getters [viewDir], [viewRight], [viewUp] (lines 64-74). *)
Definition viewDir (c : Camera) : vec3 :=
  normalize (Vec3.subtract (target c) (position c)).

Definition viewRight (c : Camera) : vec3 :=
  normalize (Vec3.cross (viewDir c) (worldUp c)).

Definition viewUp (c : Camera) : vec3 :=
  normalize (Vec3.cross (viewRight c) (viewDir c)).

(** [pan(dx, dy, dz = 0)] (lines 111-124).  The getters are evaluated
    before either field is assigned; [position] is assigned and then
    recomputed by [updatePosition]. *)
Definition pan (dx dy dz : R) (c : Camera) : Camera :=
  let adjustedPanSpeed := PAN_SPEED * distance c * fov c in
  let pan :=
    Vec3.scaleAndAdd
      (Vec3.scaleAndAdd
         (Vec3.scale (viewRight c) (- dx * adjustedPanSpeed))
         (viewUp c)
         (dy * adjustedPanSpeed))
      (viewDir c)
      (dz * adjustedPanSpeed) in
  let c := set_target (Vec3.add (target c) pan) c in
  let c := set_position (Vec3.add (position c) pan) c in
  updatePosition c.

(** *** Calls made on the camera

    The handlers below act on the module-level [camera] by calling its
    methods.  [Call] names one such call with its arguments, [perform]
    runs it. *)

Inductive Call : Type :=
| CallOrbit (dx dy : R)
| CallPan (dx dy dz : R)
| CallZoom (delta : R)
| CallAdjFOV (delta : R)
| CallAdjFOVWithoutZoom (delta : R)
| CallReset (altKey ctrlKey : bool)
| CallUpdatePosition.

Definition perform (m : Call) (c : Camera) : Camera :=
  match m with
  | CallOrbit dx dy => orbit dx dy c
  | CallPan dx dy dz => pan dx dy dz c
  | CallZoom delta => zoom delta c
  | CallAdjFOV delta => adjFOV delta c
  | CallAdjFOVWithoutZoom delta => adjFOVWithoutZoom delta c
  | CallReset a k => reset a k c
  | CallUpdatePosition => updatePosition c
  end.

(** ** Interaction state (lines 183-246) *)

(** [let state = { orbitActive, panActive, lastX, lastY }] *)
Record PointerState : Type := mkPointerState {
  orbitActive : bool;
  panActive : bool;
  lastX : R;
  lastY : R
}.

(** [keyState.orbit], [keyState.pan], [keyState.zoom] *)
Record OrbitKeys : Type := mkOrbitKeys {
  o_up : bool; o_down : bool; o_left : bool; o_right : bool
}.

Record PanKeys : Type := mkPanKeys {
  p_up : bool; p_down : bool; p_left : bool; p_right : bool;
  p_forward : bool; p_backward : bool
}.

Record ZoomKeys : Type := mkZoomKeys { z_in : bool; z_out : bool }.

Record KeyState : Type := mkKeyState {
  ks_orbit : OrbitKeys;
  ks_pan : PanKeys;
  ks_zoom : ZoomKeys
}.

(** The module-level mutable bindings, together with [calls], the list of
    the calls made on [camera] so far, oldest first. *)
Record World : Type := mkWorld {
  camera : Camera;
  state : PointerState;
  keyState : KeyState;
  keyOrbit : bool;
  keyPan : bool;
  keyZoom : bool;
  keyFOV : bool;
  keyFOVWithoutZoom : bool;
  calls : list Call
}.

Definition set_state (s : PointerState) (w : World) : World :=
  mkWorld (camera w) s (keyState w) (keyOrbit w) (keyPan w) (keyZoom w)
          (keyFOV w) (keyFOVWithoutZoom w) (calls w).

Definition set_keyState (k : KeyState) (w : World) : World :=
  mkWorld (camera w) (state w) k (keyOrbit w) (keyPan w) (keyZoom w)
          (keyFOV w) (keyFOVWithoutZoom w) (calls w).

Definition set_keyOrbit (b : bool) (w : World) : World :=
  mkWorld (camera w) (state w) (keyState w) b (keyPan w) (keyZoom w)
          (keyFOV w) (keyFOVWithoutZoom w) (calls w).

Definition set_keyPan (b : bool) (w : World) : World :=
  mkWorld (camera w) (state w) (keyState w) (keyOrbit w) b (keyZoom w)
          (keyFOV w) (keyFOVWithoutZoom w) (calls w).

Definition set_keyZoom (b : bool) (w : World) : World :=
  mkWorld (camera w) (state w) (keyState w) (keyOrbit w) (keyPan w) b
          (keyFOV w) (keyFOVWithoutZoom w) (calls w).

Definition set_keyFOV (b : bool) (w : World) : World :=
  mkWorld (camera w) (state w) (keyState w) (keyOrbit w) (keyPan w)
          (keyZoom w) b (keyFOVWithoutZoom w) (calls w).

Definition set_keyFOVWithoutZoom (b : bool) (w : World) : World :=
  mkWorld (camera w) (state w) (keyState w) (keyOrbit w) (keyPan w)
          (keyZoom w) (keyFOV w) b (calls w).

(** A method call [camera.m(...)]: the camera is updated and the call is
    recorded. *)
Definition invoke (m : Call) (w : World) : World :=
  mkWorld (perform m (camera w)) (state w) (keyState w) (keyOrbit w)
          (keyPan w) (keyZoom w) (keyFOV w) (keyFOVWithoutZoom w)
          (calls w ++ [m]).

(** [handleInputs(speedMultiplier)] (lines 154-179), called on [camera]. *)
Definition handleInputs (speedMultiplier : R) (w : World) : World :=
  let w :=
    if keyOrbit w then
      let speed := KEY_ROT_SPEED * speedMultiplier in
      invoke (CallOrbit
                ((b2n (o_left (ks_orbit (keyState w)))
                  - b2n (o_right (ks_orbit (keyState w)))) * speed)
                ((b2n (o_up (ks_orbit (keyState w)))
                  - b2n (o_down (ks_orbit (keyState w)))) * speed)) w
    else w in
  let w :=
    if keyPan w then
      let speed := KEY_PAN_SPEED * speedMultiplier in
      invoke (CallPan
                ((b2n (p_left (ks_pan (keyState w)))
                  - b2n (p_right (ks_pan (keyState w)))) * speed)
                ((b2n (p_up (ks_pan (keyState w)))
                  - b2n (p_down (ks_pan (keyState w)))) * speed)
                ((b2n (p_forward (ks_pan (keyState w)))
                  - b2n (p_backward (ks_pan (keyState w)))) * speed)) w
    else w in
  let w :=
    if keyZoom w then
      invoke (CallZoom
                ((b2n (z_out (ks_zoom (keyState w)))
                  - b2n (z_in (ks_zoom (keyState w))))
                 * KEY_ZOOM_SPEED * speedMultiplier)) w
    else w in
  let w :=
    if keyFOV w then
      invoke (CallAdjFOV
                ((b2n (z_out (ks_zoom (keyState w)))
                  - b2n (z_in (ks_zoom (keyState w))))
                 * KEY_FOV_SPEED * speedMultiplier)) w
    else w in
  if keyFOVWithoutZoom w then
    invoke (CallAdjFOVWithoutZoom
              ((b2n (z_out (ks_zoom (keyState w)))
                - b2n (z_in (ks_zoom (keyState w))))
               * KEY_FOV_SPEED * speedMultiplier)) w
  else w.

(** ** DOM events and their handlers (lines 191-295) *)

(** The properties of an event object that the handlers read. *)
Record Event : Type := mkEvent {
  button : Z;
  clientX : R;
  clientY : R;
  deltaY : R;
  key : string;
  tagName : string;   (* [e.target.tagName] *)
  altKey : bool;
  ctrlKey : bool
}.

(** ['mousedown'] (lines 194-203). *)
Definition mousedown (e : Event) (w : World) : World :=
  let w :=
    if (button e =? 0)%Z then
      set_state (mkPointerState true (panActive (state w))
                                (lastX (state w)) (lastY (state w))) w
    else w in
  let w :=
    if (button e =? 2)%Z then
      set_state (mkPointerState (orbitActive (state w)) true
                                (lastX (state w)) (lastY (state w))) w
    else w in
  let w :=
    if (button e =? 1)%Z then
      let w := invoke (CallReset (altKey e) (ctrlKey e)) w in
      invoke CallUpdatePosition w
    else w in
  let w :=
    set_state (mkPointerState (orbitActive (state w)) (panActive (state w))
                              (clientX e) (lastY (state w))) w in
  set_state (mkPointerState (orbitActive (state w)) (panActive (state w))
                            (lastX (state w)) (clientY e)) w.

(** ['mouseup'] (lines 204-207). *)
Definition mouseup (e : Event) (w : World) : World :=
  let w :=
    if (button e =? 0)%Z then
      set_state (mkPointerState false (panActive (state w))
                                (lastX (state w)) (lastY (state w))) w
    else w in
  if (button e =? 2)%Z then
    set_state (mkPointerState (orbitActive (state w)) false
                              (lastX (state w)) (lastY (state w))) w
  else w.

(** ['mousemove'] (lines 208-219); [pan(dx, dy)] takes the default
    [dz = 0]. *)
Definition mousemove (e : Event) (w : World) : World :=
  let dx := clientX e - lastX (state w) in
  let dy := clientY e - lastY (state w) in
  let w :=
    set_state (mkPointerState (orbitActive (state w)) (panActive (state w))
                              (clientX e) (clientY e)) w in
  let w := if orbitActive (state w) then invoke (CallOrbit dx dy) w else w in
  if panActive (state w) then invoke (CallPan dx dy 0) w else w.

(** ['wheel'] (lines 221-234). *)
Definition wheel (e : Event) (w : World) : World :=
  if altKey e then
    invoke (CallAdjFOVWithoutZoom (deltaY e * FOV_SPEED)) w
  else if ctrlKey e then
    invoke (CallAdjFOV (deltaY e * FOV_SPEED)) w
  else
    invoke (CallZoom (deltaY e * ZOOM_SPEED)) w.

(** [keyMap] (lines 248-261): an entry is a category and a direction
    within it.  The lookup [keyMap[e.key]] is taken over the twelve entries
    of the literal; no [key] value of a keyboard names a property that the
    object inherits. *)
Inductive OrbitDir : Type := OUp | ODown | OLeft | ORight.
Inductive PanDir : Type := PUp | PDown | PLeft | PRight | PForward | PBackward.
Inductive ZoomDir : Type := ZIn | ZOut.

Inductive KeyBinding : Type :=
| BOrbit (dir : OrbitDir)
| BPan (dir : PanDir)
| BZoom (dir : ZoomDir).

Definition keyMap (k : string) : option KeyBinding :=
  if (k =? "ArrowUp")%string then Some (BOrbit OUp)
  else if (k =? "ArrowDown")%string then Some (BOrbit ODown)
  else if (k =? "ArrowLeft")%string then Some (BOrbit OLeft)
  else if (k =? "ArrowRight")%string then Some (BOrbit ORight)
  else if (k =? "w")%string then Some (BPan PForward)
  else if (k =? "a")%string then Some (BPan PLeft)
  else if (k =? "s")%string then Some (BPan PBackward)
  else if (k =? "d")%string then Some (BPan PRight)
  else if (k =? "g")%string then Some (BPan PUp)
  else if (k =? "v")%string then Some (BPan PDown)
  else if (k =? "f")%string then Some (BZoom ZIn)
  else if (k =? "c")%string then Some (BZoom ZOut)
  else None.

(** [keyState[type][dir] = val] *)
Definition assignKey (b : KeyBinding) (val : bool) (k : KeyState) : KeyState :=
  match b with
  | BOrbit d =>
      let o := ks_orbit k in
      let o' :=
        match d with
        | OUp => mkOrbitKeys val (o_down o) (o_left o) (o_right o)
        | ODown => mkOrbitKeys (o_up o) val (o_left o) (o_right o)
        | OLeft => mkOrbitKeys (o_up o) (o_down o) val (o_right o)
        | ORight => mkOrbitKeys (o_up o) (o_down o) (o_left o) val
        end in
      mkKeyState o' (ks_pan k) (ks_zoom k)
  | BPan d =>
      let p := ks_pan k in
      let p' :=
        match d with
        | PUp => mkPanKeys val (p_down p) (p_left p) (p_right p)
                           (p_forward p) (p_backward p)
        | PDown => mkPanKeys (p_up p) val (p_left p) (p_right p)
                             (p_forward p) (p_backward p)
        | PLeft => mkPanKeys (p_up p) (p_down p) val (p_right p)
                             (p_forward p) (p_backward p)
        | PRight => mkPanKeys (p_up p) (p_down p) (p_left p) val
                              (p_forward p) (p_backward p)
        | PForward => mkPanKeys (p_up p) (p_down p) (p_left p) (p_right p)
                                val (p_backward p)
        | PBackward => mkPanKeys (p_up p) (p_down p) (p_left p) (p_right p)
                                 (p_forward p) val
        end in
      mkKeyState (ks_orbit k) p' (ks_zoom k)
  | BZoom d =>
      let z := ks_zoom k in
      let z' :=
        match d with
        | ZIn => mkZoomKeys val (z_out z)
        | ZOut => mkZoomKeys (z_in z) val
        end in
      mkKeyState (ks_orbit k) (ks_pan k) z'
  end.

(** [Object.values(keyState.orbit).some(Boolean)] and the same for
    [keyState.pan]. *)
Definition anyOrbit (o : OrbitKeys) : bool :=
  existsb (fun b => b) [o_up o; o_down o; o_left o; o_right o].

Definition anyPan (p : PanKeys) : bool :=
  existsb (fun b => b)
          [p_up p; p_down p; p_left p; p_right p; p_forward p; p_backward p].

(** The guard of [keyCamera] (line 264). *)
Definition keyIgnored (e : Event) : bool :=
  match keyMap (key e) with None => true | Some _ => false end
  || (tagName e =? "INPUT")%string
  || ((key e =? "r")%string && ctrlKey e).

(** [keyCamera(e, val)] (lines 263-277). *)
Definition keyCamera (e : Event) (val : bool) (w : World) : World :=
  if keyIgnored e then w
  else
    match keyMap (key e) with
    | None => w
    | Some b =>
        let w := set_keyState (assignKey b val (keyState w)) w in
        let zoomActive :=
          z_in (ks_zoom (keyState w)) || z_out (ks_zoom (keyState w)) in
        let w := set_keyOrbit (anyOrbit (ks_orbit (keyState w))) w in
        let w := set_keyPan (anyPan (ks_pan (keyState w))) w in
        let w := set_keyZoom (negb (ctrlKey e || altKey e) && zoomActive) w in
        let w := set_keyFOV (ctrlKey e && zoomActive) w in
        set_keyFOVWithoutZoom (altKey e && zoomActive) w
    end.

(** ['keydown'] (lines 279-292): the [switch] runs before [keyCamera]. *)
Definition keydown (e : Event) (w : World) : World :=
  let w :=
    if (key e =? "Alt")%string then w
    else if (key e =? " ")%string then
      invoke (CallReset (altKey e) (ctrlKey e)) w
    else w in
  keyCamera e true w.

(** ['keyup'] (lines 293-295). *)
Definition keyup (e : Event) (w : World) : World :=
  keyCamera e false w.

(** The bindings as the module leaves them once loaded, for a camera
    built from [defaults]. *)
Definition initialWorld : World := {|
  camera := Camera_new defaults;
  state := mkPointerState false false 0 0;
  keyState :=
    mkKeyState (mkOrbitKeys false false false false)
               (mkPanKeys false false false false false false)
               (mkZoomKeys false false);
  keyOrbit := false;
  keyPan := false;
  keyZoom := false;
  keyFOV := false;
  keyFOVWithoutZoom := false;
  calls := []
|}.

(** The derived-position relation of the data model: [position] is
    [target + distance * sphericalDirection(azimuth, elevation)]. *)
Definition positionDerived (c : Camera) : Prop :=
  position c =
  Vec3.scaleAndAdd (target c)
                   (sphericalDirection (azimuth c) (elevation c))
                   (distance c).

(** The distance range of the data model. *)
Definition distanceInRange (c : Camera) : Prop :=
  near c <= distance c <= far c.

(** The pole-avoidance limit of [orbit]. *)
Definition elevationLimit : R := PI / 2 - 0.01.

(** ** Scenarios

    Concrete states and events used below. *)

(** The default camera zoomed out to the far clip distance:
    [clamp((99 + 1) * 1, 0.1, 100) = 100]. *)
Definition farCamera : Camera := zoom 99 (Camera_new defaults).

(** A key-down of [f] with both Ctrl and Alt held, outside any input
    field. *)
Definition ctrlAltF : Event := mkEvent 0 0 0 0 "f" "BODY" true true.

(** A key-down of the space bar, outside and inside an input field. *)
Definition spaceKey : Event := mkEvent 0 0 0 0 " " "BODY" false false.
Definition spaceKeyInInput : Event := mkEvent 0 0 0 0 " " "INPUT" false false.

(** The initial world after one wheel notch without modifiers:
    [zoom(2000 * ZOOM_SPEED)] doubles the distance. *)
Definition zoomedWorld : World :=
  wheel (mkEvent 0 0 0 2000 "" "CANVAS" false false) initialWorld.

(** ** Ranges and key-state predicates *)

(** The elevation range that [orbit] clamps to. *)
Definition elevationInRange (c : Camera) : Prop :=
  - elevationLimit <= elevation c <= elevationLimit.

(** The field-of-view range that [adjFOV] and [adjFOVWithoutZoom] clamp
    to. *)
Definition fovInRange (c : Camera) : Prop := minFOV <= fov c <= maxFOV.

(** [keyState[type][dir]] read back. *)
Definition keyHeld (b : KeyBinding) (k : KeyState) : bool :=
  match b with
  | BOrbit OUp => o_up (ks_orbit k)
  | BOrbit ODown => o_down (ks_orbit k)
  | BOrbit OLeft => o_left (ks_orbit k)
  | BOrbit ORight => o_right (ks_orbit k)
  | BPan PUp => p_up (ks_pan k)
  | BPan PDown => p_down (ks_pan k)
  | BPan PLeft => p_left (ks_pan k)
  | BPan PRight => p_right (ks_pan k)
  | BPan PForward => p_forward (ks_pan k)
  | BPan PBackward => p_backward (ks_pan k)
  | BZoom ZIn => z_in (ks_zoom k)
  | BZoom ZOut => z_out (ks_zoom k)
  end.

(** [zoomActive] of [keyCamera] (line 270). *)
Definition zoomHeld (k : KeyState) : bool :=
  z_in (ks_zoom k) || z_out (ks_zoom k).

(** The five activity flags agree with [keyState] the way [keyCamera]
    leaves them. *)
Definition flagsConsistent (w : World) : Prop :=
  keyOrbit w = anyOrbit (ks_orbit (keyState w)) /\
  keyPan w = anyPan (ks_pan (keyState w)) /\
  keyZoom w || keyFOV w || keyFOVWithoutZoom w = zoomHeld (keyState w) /\
  keyZoom w && (keyFOV w || keyFOVWithoutZoom w) = false.

(** Every pair of opposing directions is in the same state. *)
Definition opposingKeysEqual (k : KeyState) : Prop :=
  o_left (ks_orbit k) = o_right (ks_orbit k) /\
  o_up (ks_orbit k) = o_down (ks_orbit k) /\
  p_left (ks_pan k) = p_right (ks_pan k) /\
  p_up (ks_pan k) = p_down (ks_pan k) /\
  p_forward (ks_pan k) = p_backward (ks_pan k) /\
  z_in (ks_zoom k) = z_out (ks_zoom k).

(** ** The host's event dispatch

    ['contextmenu'] (line 192) only calls [e.preventDefault()]. *)
Definition contextmenu (e : Event) (w : World) : World := w.

(** What the host can deliver: one of the events the module listens to
    (lines 192-295), or a frame on which the render loop calls
    [camera.handleInputs(speedMultiplier)]. *)
Inductive Input : Type :=
| ContextMenu (e : Event)
| MouseDown (e : Event)
| MouseUp (e : Event)
| MouseMove (e : Event)
| Wheel (e : Event)
| KeyDown (e : Event)
| KeyUp (e : Event)
| Frame (speedMultiplier : R).

Definition step (i : Input) (w : World) : World :=
  match i with
  | ContextMenu e => contextmenu e w
  | MouseDown e => mousedown e w
  | MouseUp e => mouseup e w
  | MouseMove e => mousemove e w
  | Wheel e => wheel e w
  | KeyDown e => keydown e w
  | KeyUp e => keyup e w
  | Frame s => handleInputs s w
  end.

(** Handlers run to completion, one input after the other. *)
Definition run (inputs : list Input) (w : World) : World :=
  fold_left (fun w i => step i w) inputs w.

(** A list of method calls made one after the other on a camera. *)
Definition replay (ms : list Call) (c : Camera) : Camera :=
  fold_left (fun c m => perform m c) ms c.

(** The effect of a handler: the calls it makes, in order, and a camera that
    is the old one after those calls. *)
Definition actsThrough (ms : list Call) (w w' : World) : Prop :=
  camera w' = replay ms (camera w) /\ calls w' = calls w ++ ms.

(** What holds of the camera in every world the inputs can lead to. *)
Definition poseInvariant (c : Camera) : Prop :=
  positionDerived c /\ elevationInRange c /\ fovInRange c /\
  near c = 0.1 /\ far c = 100 /\ worldUp c = Vec3.fromValues 0 1 0 /\
  invertMatrix c = true.

(** The keyboard bindings of two worlds are the same. *)
Definition sameKeys (w w' : World) : Prop :=
  keyState w' = keyState w /\ keyOrbit w' = keyOrbit w /\
  keyPan w' = keyPan w /\ keyZoom w' = keyZoom w /\
  keyFOV w' = keyFOV w /\ keyFOVWithoutZoom w' = keyFOVWithoutZoom w.

(** The calls of one [handleInputs] tick, in the order of its five [if]s
    (lines 155-178). *)
Definition tickCalls (s : R) (w : World) : list Call :=
  let k := keyState w in
  (if keyOrbit w then
     [CallOrbit
        ((b2n (o_left (ks_orbit k)) - b2n (o_right (ks_orbit k)))
         * (KEY_ROT_SPEED * s))
        ((b2n (o_up (ks_orbit k)) - b2n (o_down (ks_orbit k)))
         * (KEY_ROT_SPEED * s))]
   else [])
  ++ (if keyPan w then
        [CallPan
           ((b2n (p_left (ks_pan k)) - b2n (p_right (ks_pan k)))
            * (KEY_PAN_SPEED * s))
           ((b2n (p_up (ks_pan k)) - b2n (p_down (ks_pan k)))
            * (KEY_PAN_SPEED * s))
           ((b2n (p_forward (ks_pan k)) - b2n (p_backward (ks_pan k)))
            * (KEY_PAN_SPEED * s))]
      else [])
  ++ (if keyZoom w then
        [CallZoom ((b2n (z_out (ks_zoom k)) - b2n (z_in (ks_zoom k)))
                   * KEY_ZOOM_SPEED * s)]
      else [])
  ++ (if keyFOV w then
        [CallAdjFOV ((b2n (z_out (ks_zoom k)) - b2n (z_in (ks_zoom k)))
                     * KEY_FOV_SPEED * s)]
      else [])
  ++ (if keyFOVWithoutZoom w then
        [CallAdjFOVWithoutZoom
           ((b2n (z_out (ks_zoom k)) - b2n (z_in (ks_zoom k)))
            * KEY_FOV_SPEED * s)]
      else []).

(** ** The assignments of each method

    What each method assigns before the [updatePosition] call that ends
    it. *)

(** Lines 48-58 and 61 of the constructor. *)
Definition constructorAssignments (d : Defaults) : Camera :=
  {| target := Vec3.clone (d_target d);
     distance := d_distance d;
     position := Vec3.clone (d_position d);
     azimuth := d_azimuth d;
     elevation := d_elevation d;
     fov := d_fov d;
     near := d_near d;
     far := d_far d;
     worldUp := Vec3.fromValues 0 1 0;
     invertMatrix := d_invertMatrix d |}.

(** Lines 103-107 of [orbit]. *)
Definition orbitAssignments (dx dy : R) (c : Camera) : Camera :=
  let c := set_azimuth (azimuth c - dx * ROT_SPEED) c in
  let c := set_elevation (elevation c + dy * ROT_SPEED) c in
  let limit := PI / 2 - 0.01 in
  set_elevation (clamp (elevation c) (- limit) limit) c.

(** The constant [pan] of the method [pan] (lines 112-120). *)
Definition panVector (dx dy dz : R) (c : Camera) : vec3 :=
  let adjustedPanSpeed := PAN_SPEED * distance c * fov c in
  Vec3.scaleAndAdd
    (Vec3.scaleAndAdd
       (Vec3.scale (viewRight c) (- dx * adjustedPanSpeed))
       (viewUp c)
       (dy * adjustedPanSpeed))
    (viewDir c)
    (dz * adjustedPanSpeed).

(** Lines 112-122 of [pan]: line 122 is [this.position = vec3.add(this.position, pan)]. *)
Definition panAssignments (dx dy dz : R) (c : Camera) : Camera :=
  let p := panVector dx dy dz c in
  let c := set_target (Vec3.add (target c) p) c in
  set_position (Vec3.add (position c) p) c.

(** Line 127 of [zoom]. *)
Definition zoomAssignments (delta : R) (c : Camera) : Camera :=
  set_distance (clamp ((delta + 1) * distance c) (near c) (far c)) c.

(** Line 132 of [adjFOV]. *)
Definition adjFOVAssignments (delta : R) (c : Camera) : Camera :=
  set_fov (clamp (fov c + delta) minFOV maxFOV) c.

(** Lines 137-139 of [adjFOVWithoutZoom]. *)
Definition adjFOVWithoutZoomAssignments (delta : R) (c : Camera) : Camera :=
  let initial := tan (fov c / 2) * distance c in
  let c := set_fov (clamp (fov c + delta) minFOV maxFOV) c in
  set_distance (initial / tan (fov c / 2)) c.

(** Lines 144-150 of [reset]. *)
Definition resetAssignments (altKey ctrlKey : bool) (c : Camera) : Camera :=
  let c := set_fov (d_fov defaults) c in
  let c := if negb ctrlKey then set_distance (d_distance defaults) c else c in
  if negb altKey && negb ctrlKey then
    let c := set_azimuth (d_azimuth defaults) c in
    let c := set_elevation (d_elevation defaults) c in
    set_target (Vec3.clone (d_target defaults)) c
  else c.

(** * Properties *)

(** ** [clamp] *)

Lemma clamp_bounds (x lo hi : R) : lo <= hi -> lo <= clamp x lo hi <= hi.
Proof.
  intros Hle. unfold clamp, Rmax, Rmin.
  destruct (Rle_dec hi x); destruct (Rle_dec lo _); lra.
Qed.

Lemma clamp_inside (x lo hi : R) : lo <= x <= hi -> clamp x lo hi = x.
Proof.
  intros [H1 H2]. unfold clamp, Rmax, Rmin.
  destruct (Rle_dec hi x); destruct (Rle_dec lo _); lra.
Qed.

Lemma clamp_below (x lo hi : R) : x <= lo -> lo <= hi -> clamp x lo hi = lo.
Proof.
  intros H1 H2. unfold clamp, Rmax, Rmin.
  destruct (Rle_dec hi x); destruct (Rle_dec lo _); lra.
Qed.

Lemma lt_div_pos (a b c : R) : 0 < c -> a * c < b -> a < b / c.
Proof.
  intros Hc H. apply (Rmult_lt_reg_r c); [exact Hc|].
  replace (b / c * c) with b by (field; lra). exact H.
Qed.

(** ** The field-of-view range *)

Lemma minFOV_pos : 0 < minFOV.
Proof. unfold minFOV, toRad. pose proof PI_RGT_0. lra. Qed.

Lemma minFOV_le_maxFOV : minFOV <= maxFOV.
Proof. unfold minFOV, maxFOV, toRad. pose proof PI_RGT_0. lra. Qed.

Lemma maxFOV_lt_PI : maxFOV < PI.
Proof. unfold maxFOV, toRad. pose proof PI_RGT_0. lra. Qed.

Lemma tan_half_fov_pos (f : R) : minFOV <= f <= maxFOV -> 0 < tan (f / 2).
Proof.
  intros [Hlo Hhi]. pose proof minFOV_pos. pose proof maxFOV_lt_PI.
  apply tan_gt_0; lra.
Qed.

Lemma elevationLimit_pos : 0 < elevationLimit.
Proof. unfold elevationLimit. pose proof PI2_1. lra. Qed.

(** ** What each method writes *)

Lemma updatePosition_derived (c : Camera) : positionDerived (updatePosition c).
Proof. reflexivity. Qed.

Lemma Camera_new_derived (d : Defaults) : positionDerived (Camera_new d).
Proof. apply updatePosition_derived. Qed.

Lemma orbit_derived (dx dy : R) (c : Camera) : positionDerived (orbit dx dy c).
Proof. apply updatePosition_derived. Qed.

Lemma pan_derived (dx dy dz : R) (c : Camera) :
  positionDerived (pan dx dy dz c).
Proof. apply updatePosition_derived. Qed.

Lemma zoom_derived (delta : R) (c : Camera) : positionDerived (zoom delta c).
Proof. apply updatePosition_derived. Qed.

Lemma adjFOV_derived (delta : R) (c : Camera) :
  positionDerived (adjFOV delta c).
Proof. apply updatePosition_derived. Qed.

Lemma adjFOVWithoutZoom_derived (delta : R) (c : Camera) :
  positionDerived (adjFOVWithoutZoom delta c).
Proof. apply updatePosition_derived. Qed.

Lemma reset_derived (a k : bool) (c : Camera) : positionDerived (reset a k c).
Proof. apply updatePosition_derived. Qed.

Lemma perform_derived (m : Call) (c : Camera) : positionDerived (perform m c).
Proof.
  destruct m; simpl;
    auto using orbit_derived, pan_derived, zoom_derived, adjFOV_derived,
               adjFOVWithoutZoom_derived, reset_derived,
               updatePosition_derived.
Qed.

Lemma zoom_distance (delta : R) (c : Camera) :
  distance (zoom delta c) = clamp ((delta + 1) * distance c) (near c) (far c).
Proof. reflexivity. Qed.

Lemma zoom_near_far (delta : R) (c : Camera) :
  near (zoom delta c) = near c /\ far (zoom delta c) = far c.
Proof. split; reflexivity. Qed.

(** ** The distance range under the methods that keep it

    [orbit], [pan] and [adjFOV] do not write [distance]; [zoom] clamps what
    it writes; [reset] writes the default distance, which lies between the
    default clip distances. *)

Lemma orbit_distanceInRange (dx dy : R) (c : Camera) :
  distanceInRange c -> distanceInRange (orbit dx dy c).
Proof. intros H; exact H. Qed.

Lemma pan_distanceInRange (dx dy dz : R) (c : Camera) :
  distanceInRange c -> distanceInRange (pan dx dy dz c).
Proof. intros H; exact H. Qed.

Lemma adjFOV_distanceInRange (delta : R) (c : Camera) :
  distanceInRange c -> distanceInRange (adjFOV delta c).
Proof. intros H; exact H. Qed.

Lemma zoom_distanceInRange (delta : R) (c : Camera) :
  near c <= far c -> distanceInRange (zoom delta c).
Proof.
  intros H. unfold distanceInRange.
  destruct (zoom_near_far delta c) as [-> ->]. rewrite zoom_distance.
  apply clamp_bounds, H.
Qed.

Lemma reset_distanceInRange (a k : bool) (c : Camera) :
  near c <= d_distance defaults <= far c ->
  distanceInRange c -> distanceInRange (reset a k c).
Proof.
  intros Hd H. unfold distanceInRange in *.
  destruct a, k; simpl in *; lra.
Qed.

(** ** Claims about the camera methods *)

(** C1.  The distance range is not kept by [adjFOVWithoutZoom]: on the
    default camera zoomed out to [far], where [near <= distance <= far]
    holds, narrowing the field of view by 0.2 rad sets [distance] to
    [tan(fov/2) * 100 / tan((fov - 0.2)/2)], which exceeds [far].  The method
    assigns the recomputed distance without the clamp that [zoom] applies. *)
Theorem adjFOVWithoutZoom_leaves_distance_range :
  distanceInRange farCamera /\
  fov farCamera = toRad 60 /\
  fov (adjFOVWithoutZoom (-0.2) farCamera) = toRad 60 - 0.2 /\
  far (adjFOVWithoutZoom (-0.2) farCamera) = 100 /\
  100 < distance (adjFOVWithoutZoom (-0.2) farCamera) /\
  ~ distanceInRange (adjFOVWithoutZoom (-0.2) farCamera).
Proof.
  assert (Hd : distance farCamera = 100).
  { unfold farCamera. rewrite zoom_distance.
    transitivity (clamp 100 0.1 100).
    - f_equal. simpl. lra.
    - apply clamp_inside. lra. }
  assert (Hf : clamp (toRad 60 + -0.2) minFOV maxFOV = toRad 60 - 0.2).
  { rewrite clamp_inside; [lra|].
    unfold minFOV, maxFOV, toRad. pose proof PI2_1. lra. }
  assert (Hbig : 100 < distance (adjFOVWithoutZoom (-0.2) farCamera)).
  { change (distance (adjFOVWithoutZoom (-0.2) farCamera))
      with (tan (fov farCamera / 2) * distance farCamera
            / tan (clamp (fov farCamera + -0.2) minFOV maxFOV / 2)).
    rewrite Hd. change (fov farCamera) with (toRad 60). rewrite Hf.
    assert (H0 : 0 < tan ((toRad 60 - 0.2) / 2)).
    { apply tan_gt_0; unfold toRad; pose proof PI2_1; pose proof PI_RGT_0; lra. }
    assert (H1 : tan ((toRad 60 - 0.2) / 2) < tan (toRad 60 / 2)).
    { apply tan_increasing; unfold toRad; pose proof PI2_1;
        pose proof PI_RGT_0; lra. }
    apply lt_div_pos; [exact H0 | lra]. }
  repeat split.
  - rewrite Hd. simpl. lra.
  - rewrite Hd. simpl. lra.
  - change (fov (adjFOVWithoutZoom (-0.2) farCamera))
      with (clamp (toRad 60 + -0.2) minFOV maxFOV). exact Hf.
  - exact Hbig.
  - unfold distanceInRange. intros [_ H].
    change (far (adjFOVWithoutZoom (-0.2) farCamera)) with 100 in H. lra.
Qed.

(** C2.  [orbit(dx, dy)] subtracts [dx * ROT_SPEED] from the azimuth and
    sets the elevation to [elevation + dy * ROT_SPEED] clamped to
    [-(PI/2 - 0.01), PI/2 - 0.01], so the elevation ends within that range.
    From any camera with [distance = 1], [azimuth = 0], [elevation = 0],
    [orbit(100, 0)] gives [azimuth = -0.5] and
    [position = target + distance * (sin(-0.5), 0, cos(-0.5))]. *)
Theorem orbit_spec :
  (forall (c : Camera) (dx dy : R),
      azimuth (orbit dx dy c) = azimuth c - dx * ROT_SPEED /\
      elevation (orbit dx dy c)
      = clamp (elevation c + dy * ROT_SPEED)
              (- (PI / 2 - 0.01)) (PI / 2 - 0.01) /\
      - (PI / 2 - 0.01) <= elevation (orbit dx dy c) <= PI / 2 - 0.01) /\
  (ROT_SPEED = 0.005 /\
   forall (t p wu : vec3) (f n fr : R) (im : bool),
     let c := mkCamera t 1 p 0 0 f n fr wu im in
     azimuth (orbit 100 0 c) = -0.5 /\
     position (orbit 100 0 c)
     = Vec3.scaleAndAdd (target c) (mkVec3 (sin (-0.5)) 0 (cos (-0.5)))
                        (distance c)).
Proof.
  split; [intros c dx dy; repeat split | split; [reflexivity|]].
  - apply clamp_bounds. pose proof elevationLimit_pos as H.
    unfold elevationLimit in H. lra.
  - apply clamp_bounds. pose proof elevationLimit_pos as H.
    unfold elevationLimit in H. lra.
  - intros t p wu f n fr im c.
    assert (Haz : azimuth (orbit 100 0 c) = -0.5).
    { unfold c; simpl. unfold ROT_SPEED. lra. }
    assert (Hel : elevation (orbit 100 0 c) = 0).
    { unfold c; simpl. replace (0 + 0 * ROT_SPEED) with 0 by lra.
      apply clamp_inside. pose proof elevationLimit_pos as H.
      unfold elevationLimit in H. lra. }
    split; [exact Haz|].
    pose proof (orbit_derived 100 0 c) as Hp. unfold positionDerived in Hp.
    rewrite Hp, Haz, Hel. unfold sphericalDirection.
    rewrite cos_0, sin_0, !Rmult_1_l. reflexivity.
Qed.

(** C3.  [zoom(delta)] sets [distance] to
    [clamp(distance * (1 + delta), near, far)]; with [near <= far] the new
    distance lies in [[near, far]] for every [delta], [delta <= -1]
    included.  With [near = 0.1], [zoom(0.1)] on [distance = 10] gives 11
    (the far plane being at least that far), and [zoom(-1)] after it gives
    [near]. *)
Theorem zoom_spec (c : Camera) (delta : R) (Hclip : near c <= far c) :
  distance (zoom delta c)
  = clamp (distance c * (1 + delta)) (near c) (far c) /\
  near (zoom delta c) <= distance (zoom delta c) <= far (zoom delta c) /\
  (near c = 0.1 -> distance c = 10 -> 11 <= far c ->
   distance (zoom 0.1 c) = 11 /\
   distance (zoom (-1) (zoom 0.1 c)) = near c).
Proof.
  split; [|split].
  - rewrite zoom_distance. f_equal. lra.
  - apply zoom_distanceInRange, Hclip.
  - intros Hn Hd Hf.
    assert (H11 : distance (zoom 0.1 c) = 11).
    { rewrite zoom_distance, Hd.
      replace ((0.1 + 1) * 10) with 11 by lra.
      apply clamp_inside. lra. }
    split; [exact H11|].
    rewrite zoom_distance, H11.
    destruct (zoom_near_far 0.1 c) as [-> ->].
    apply clamp_below; lra.
Qed.

(** C4.  [adjFOVWithoutZoom(delta)] sets [fov] to
    [clamp(fov + delta, minFOV, maxFOV)], which lies in [[minFOV, maxFOV]],
    and the apparent size [tan(fov/2) * distance] is the same after the call
    as before it.  Over the reals this holds for every [delta], those that
    the clamp cuts off included, and so for every [delta] that is not. *)
Theorem adjFOVWithoutZoom_spec (c : Camera) (delta : R) :
  fov (adjFOVWithoutZoom delta c) = clamp (fov c + delta) minFOV maxFOV /\
  minFOV <= fov (adjFOVWithoutZoom delta c) <= maxFOV /\
  tan (fov (adjFOVWithoutZoom delta c) / 2)
  * distance (adjFOVWithoutZoom delta c)
  = tan (fov c / 2) * distance c.
Proof.
  pose proof (clamp_bounds (fov c + delta) _ _ minFOV_le_maxFOV) as Hb.
  split; [reflexivity | split; [exact Hb|]].
  change (fov (adjFOVWithoutZoom delta c))
    with (clamp (fov c + delta) minFOV maxFOV).
  change (distance (adjFOVWithoutZoom delta c))
    with (tan (fov c / 2) * distance c
          / tan (clamp (fov c + delta) minFOV maxFOV / 2)).
  pose proof (tan_half_fov_pos _ Hb) as Ht.
  field. lra.
Qed.

(** C5.  [reset] always restores [fov] to the value a camera built from
    [defaults] has; it restores [distance] unless Ctrl is held, and
    [azimuth], [elevation] and [target] unless Ctrl or Alt is held; a field
    that is not restored keeps its value. *)
Theorem reset_spec (c : Camera) (alt ctrl : bool) :
  let fresh := Camera_new defaults in
  fov (reset alt ctrl c) = fov fresh /\
  distance (reset alt ctrl c)
  = (if ctrl then distance c else distance fresh) /\
  azimuth (reset alt ctrl c)
  = (if ctrl || alt then azimuth c else azimuth fresh) /\
  elevation (reset alt ctrl c)
  = (if ctrl || alt then elevation c else elevation fresh) /\
  target (reset alt ctrl c)
  = (if ctrl || alt then target c else target fresh).
Proof. destruct alt, ctrl; repeat split. Qed.

(** C6.  [pan] leaves [distance] and [fov] as they are; [orbit] leaves
    [target] and [distance] as they are. *)
Theorem pan_orbit_frame (c : Camera) (dx dy dz : R) :
  distance (pan dx dy dz c) = distance c /\
  fov (pan dx dy dz c) = fov c /\
  target (orbit dx dy c) = target c /\
  distance (orbit dx dy c) = distance c.
Proof. repeat split. Qed.

(** ** The per-tick aggregator *)

Lemma invoke_camera (m : Call) (w : World) :
  camera (invoke m w) = perform m (camera w).
Proof. reflexivity. Qed.

Lemma invoke_calls (m : Call) (w : World) : calls (invoke m w) = calls w ++ [m].
Proof. reflexivity. Qed.

(** One guarded call of [handleInputs]: [if (flag) this.m(...)]. *)
Lemma guarded_invoke_derived (b : bool) (m : Call) (w : World) :
  positionDerived (camera w) ->
  positionDerived (camera (if b then invoke m w else w)).
Proof.
  intros H. destruct b; [|exact H].
  rewrite invoke_camera. apply perform_derived.
Qed.

Lemma handleInputs_derived (s : R) (w : World) :
  positionDerived (camera w) -> positionDerived (camera (handleInputs s w)).
Proof.
  intros H. unfold handleInputs. cbv zeta.
  repeat apply guarded_invoke_derived. exact H.
Qed.

Lemma reset_assignments (alt ctrl : bool) (c : Camera) :
  reset alt ctrl c = updatePosition (resetAssignments alt ctrl c) /\
  position (resetAssignments alt ctrl c) = position c.
Proof. destruct alt, ctrl; split; reflexivity. Qed.

(** C7, as amended.  A freshly constructed camera has
    [position = target + distance * (cos el * sin az, sin el, cos el * cos az)],
    so has the camera after each of [orbit], [pan], [zoom], [adjFOV],
    [adjFOVWithoutZoom] and [reset], whatever [position] held before, and
    [handleInputs], which acts only through those methods, keeps the
    relation on every tick.  [orbit], [zoom], [adjFOV], [adjFOVWithoutZoom]
    and [reset] leave [position] alone until the [updatePosition] call that
    ends them; the constructor and [pan] assign it themselves first, [pan]
    the old position moved by the pan vector, and the [updatePosition] call
    that ends them overwrites that value. *)
Theorem position_derived_after_every_operation
        (w : World) (speedMultiplier : R)
        (Hw : positionDerived (camera w)) :
  (forall d, positionDerived (Camera_new d)) /\
  (forall c dx dy, positionDerived (orbit dx dy c)) /\
  (forall c dx dy dz, positionDerived (pan dx dy dz c)) /\
  (forall c delta, positionDerived (zoom delta c)) /\
  (forall c delta, positionDerived (adjFOV delta c)) /\
  (forall c delta, positionDerived (adjFOVWithoutZoom delta c)) /\
  (forall c alt ctrl, positionDerived (reset alt ctrl c)) /\
  positionDerived (camera (handleInputs speedMultiplier w)) /\
  (forall c dx dy,
      orbit dx dy c = updatePosition (orbitAssignments dx dy c) /\
      position (orbitAssignments dx dy c) = position c) /\
  (forall c delta,
      zoom delta c = updatePosition (zoomAssignments delta c) /\
      position (zoomAssignments delta c) = position c) /\
  (forall c delta,
      adjFOV delta c = updatePosition (adjFOVAssignments delta c) /\
      position (adjFOVAssignments delta c) = position c) /\
  (forall c delta,
      adjFOVWithoutZoom delta c
      = updatePosition (adjFOVWithoutZoomAssignments delta c) /\
      position (adjFOVWithoutZoomAssignments delta c) = position c) /\
  (forall c alt ctrl,
      reset alt ctrl c = updatePosition (resetAssignments alt ctrl c) /\
      position (resetAssignments alt ctrl c) = position c) /\
  (forall c dx dy dz,
      pan dx dy dz c = updatePosition (panAssignments dx dy dz c) /\
      position (panAssignments dx dy dz c)
      = Vec3.add (position c) (panVector dx dy dz c)) /\
  (forall d,
      Camera_new d = updatePosition (constructorAssignments d) /\
      position (constructorAssignments d) = Vec3.clone (d_position d)).
Proof.
  split; [intros; apply Camera_new_derived|].
  split; [intros; apply orbit_derived|].
  split; [intros; apply pan_derived|].
  split; [intros; apply zoom_derived|].
  split; [intros; apply adjFOV_derived|].
  split; [intros; apply adjFOVWithoutZoom_derived|].
  split; [intros; apply reset_derived|].
  split; [apply handleInputs_derived, Hw|].
  split; [intros; split; reflexivity|].
  split; [intros; split; reflexivity|].
  split; [intros; split; reflexivity|].
  split; [intros; split; reflexivity|].
  split; [intros; apply reset_assignments|].
  split; intros; split; reflexivity.
Qed.

(** ** The key handlers *)

Lemma keyIgnored_iff (e : Event) :
  keyIgnored e = true <->
  keyMap (key e) = None \/ tagName e = "INPUT"%string
  \/ (key e = "r"%string /\ ctrlKey e = true).
Proof.
  unfold keyIgnored. rewrite !orb_true_iff, andb_true_iff, !String.eqb_eq.
  destruct (keyMap (key e)); intuition congruence.
Qed.

Lemma keyCamera_ignored (e : Event) (val : bool) (w : World) :
  keyIgnored e = true -> keyCamera e val w = w.
Proof. intros H. unfold keyCamera. rewrite H. reflexivity. Qed.

(** With at most one of Ctrl and Alt on the event, a recognized key event
    leaves at most one of the three zoom-category flags set. *)
Lemma keyCamera_one_flag (e : Event) (val : bool) (w : World) :
  keyIgnored e = false ->
  ctrlKey e && altKey e = false ->
  let w' := keyCamera e val w in
  keyZoom w' && keyFOV w' = false /\
  keyZoom w' && keyFOVWithoutZoom w' = false /\
  keyFOV w' && keyFOVWithoutZoom w' = false.
Proof.
  intros Hi Hm. unfold keyCamera. rewrite Hi.
  destruct (keyMap (key e)) as [b|] eqn:Hk.
  - cbn. destruct (ctrlKey e), (altKey e); try discriminate;
      destruct (z_in _ || z_out _); auto.
  - unfold keyIgnored in Hi. rewrite Hk in Hi. discriminate.
Qed.

(** C8.  A key-down of [f] with both Ctrl and Alt held, on the initial
    world, sets both [keyFOV] and [keyFOVWithoutZoom], and the next
    [handleInputs] tick calls [adjFOV] and then [adjFOVWithoutZoom]: two of
    the three zoom-category flags are set at once and two of the three
    methods run in one tick. *)
Theorem ctrl_alt_key_sets_two_zoom_flags :
  let w := keydown ctrlAltF initialWorld in
  keyMap (key ctrlAltF) = Some (BZoom ZIn) /\
  keyIgnored ctrlAltF = false /\
  keyZoom w = false /\
  keyFOV w = true /\
  keyFOVWithoutZoom w = true /\
  calls w = [] /\
  calls (handleInputs 1 w)
  = [CallAdjFOV (- KEY_FOV_SPEED); CallAdjFOVWithoutZoom (- KEY_FOV_SPEED)].
Proof.
  cbv zeta. repeat split.
  unfold handleInputs, keydown, keyCamera, ctrlAltF, initialWorld. cbn.
  f_equal; [|f_equal]; f_equal; lra.
Qed.

(** C9, as amended.  For a key event whose key is not in [keyMap], or whose
    target is an [INPUT] element, or which is Ctrl+r, [keyCamera] returns
    the world as it was, so key-up changes nothing and key-down leaves
    [keyState], the five activity flags and the pointer state as they
    were; when the key is not the space bar, key-down changes nothing at
    all. *)
Theorem ignored_key_event_mutates_nothing
        (e : Event) (w : World)
        (Hign : keyMap (key e) = None \/ tagName e = "INPUT"%string
                \/ (key e = "r"%string /\ ctrlKey e = true)) :
  (forall val, keyCamera e val w = w) /\
  keyup e w = w /\
  keyState (keydown e w) = keyState w /\
  keyOrbit (keydown e w) = keyOrbit w /\
  keyPan (keydown e w) = keyPan w /\
  keyZoom (keydown e w) = keyZoom w /\
  keyFOV (keydown e w) = keyFOV w /\
  keyFOVWithoutZoom (keydown e w) = keyFOVWithoutZoom w /\
  state (keydown e w) = state w /\
  (key e <> " "%string -> keydown e w = w).
Proof.
  apply keyIgnored_iff in Hign.
  split; [intros val; apply keyCamera_ignored, Hign|].
  split; [apply keyCamera_ignored, Hign|].
  unfold keydown. rewrite (keyCamera_ignored _ _ _ Hign).
  destruct (key e =? "Alt")%string; [repeat split|].
  destruct (key e =? " ")%string eqn:Hsp; repeat split.
  intros Hne. apply String.eqb_eq in Hsp. contradiction.
Qed.

(** ** The wheel handler *)

(** C10.  A wheel event makes exactly one call on the camera: with Alt it
    is [adjFOVWithoutZoom(deltaY * FOV_SPEED)], otherwise with Ctrl it is
    [adjFOV(deltaY * FOV_SPEED)], otherwise [zoom(deltaY * ZOOM_SPEED)].
    With both Alt and Ctrl the call is [adjFOVWithoutZoom]. *)
Theorem wheel_invokes_exactly_one (e : Event) (w : World) :
  let m :=
    if altKey e then CallAdjFOVWithoutZoom (deltaY e * FOV_SPEED)
    else if ctrlKey e then CallAdjFOV (deltaY e * FOV_SPEED)
    else CallZoom (deltaY e * ZOOM_SPEED) in
  wheel e w = invoke m w /\
  calls (wheel e w) = calls w ++ [m] /\
  camera (wheel e w) = perform m (camera w) /\
  (forall b x y d k t,
      calls (wheel (mkEvent b x y d k t true true) w)
      = calls w ++ [CallAdjFOVWithoutZoom (d * FOV_SPEED)]).
Proof.
  cbv zeta. unfold wheel.
  destruct (altKey e), (ctrlKey e); repeat split.
Qed.

(** * Further properties of the code *)

(** ** Numeric helpers *)

(** X2.  With the bounds the wrong way round, [clamp] returns its lower
    bound whatever [x] is: the outer [Math.max(min, ...)] wins. *)
Theorem clamp_inverted_bounds (x lo hi : R) (Hinv : hi <= lo) :
  clamp x lo hi = lo.
Proof.
  unfold clamp, Rmax, Rmin.
  destruct (Rle_dec hi x); destruct (Rle_dec lo _); lra.
Qed.

Lemma clamp_idempotent (x lo hi : R) :
  clamp (clamp x lo hi) lo hi = clamp x lo hi.
Proof.
  unfold clamp, Rmax, Rmin.
  repeat (destruct (Rle_dec _ _)); lra.
Qed.

Lemma clamp_above_lo (x lo hi : R) : lo <= clamp x lo hi.
Proof. unfold clamp. apply Rmax_l. Qed.

(** X3.  [clamp] is monotone in [x], never goes below its lower bound, and
    clamping twice is clamping once, whatever the bounds. *)
Theorem clamp_monotone_idempotent (x y lo hi : R) (Hxy : x <= y) :
  clamp x lo hi <= clamp y lo hi /\
  lo <= clamp x lo hi /\
  clamp (clamp x lo hi) lo hi = clamp x lo hi.
Proof.
  split; [|split; [apply clamp_above_lo | apply clamp_idempotent]].
  unfold clamp, Rmax, Rmin.
  repeat (destruct (Rle_dec _ _)); lra.
Qed.

(** ** Setters and [updatePosition] *)

Lemma set_azimuth_same (c : Camera) : set_azimuth (azimuth c) c = c.
Proof. destruct c; reflexivity. Qed.

Lemma set_elevation_same (c : Camera) : set_elevation (elevation c) c = c.
Proof. destruct c; reflexivity. Qed.

Lemma set_distance_same (c : Camera) : set_distance (distance c) c = c.
Proof. destruct c; reflexivity. Qed.

Lemma set_fov_same (c : Camera) : set_fov (fov c) c = c.
Proof. destruct c; reflexivity. Qed.

Lemma set_target_same (c : Camera) : set_target (target c) c = c.
Proof. destruct c; reflexivity. Qed.

Lemma set_position_same (c : Camera) : set_position (position c) c = c.
Proof. destruct c; reflexivity. Qed.

Lemma updatePosition_id (c : Camera) :
  positionDerived c -> updatePosition c = c.
Proof.
  intros H. unfold updatePosition. cbv zeta.
  change (mkVec3 (cos (elevation c) * sin (azimuth c)) (sin (elevation c))
                 (cos (elevation c) * cos (azimuth c)))
    with (sphericalDirection (azimuth c) (elevation c)).
  unfold positionDerived in H. rewrite <- H. apply set_position_same.
Qed.

(** X4.  Every camera method leaves the camera in a state that a further
    [updatePosition] does not change; so the [camera.updatePosition()] that
    the middle-button handler issues after [camera.reset(e)] does not move
    the camera. *)
Theorem updatePosition_after_call_is_noop (m : Call) (c : Camera) :
  updatePosition (perform m c) = perform m c.
Proof. apply updatePosition_id, perform_derived. Qed.

(** ** [adjFOV] *)

Lemma adjFOV_eq (delta : R) (c : Camera) :
  adjFOV delta c
  = updatePosition (set_fov (clamp (fov c + delta) minFOV maxFOV) c).
Proof. reflexivity. Qed.

(** X5.  On a camera whose position is the derived one, [adjFOV] changes
    the [fov] field and nothing else, and the new [fov] lies in
    [[minFOV, maxFOV]]. *)
Theorem adjFOV_changes_only_fov (delta : R) (c : Camera)
        (Hpos : positionDerived c) :
  adjFOV delta c = set_fov (clamp (fov c + delta) minFOV maxFOV) c /\
  fovInRange (adjFOV delta c).
Proof.
  split.
  - rewrite adjFOV_eq. apply updatePosition_id. exact Hpos.
  - unfold fovInRange. apply clamp_bounds, minFOV_le_maxFOV.
Qed.

(** ** Calls with a zero delta *)

Lemma orbit_eq (dx dy : R) (c : Camera) :
  orbit dx dy c
  = updatePosition
      (set_elevation
         (clamp (elevation c + dy * ROT_SPEED)
                (- (PI / 2 - 0.01)) (PI / 2 - 0.01))
         (set_azimuth (azimuth c - dx * ROT_SPEED) c)).
Proof. reflexivity. Qed.

Lemma zoom_eq (delta : R) (c : Camera) :
  zoom delta c
  = updatePosition
      (set_distance (clamp ((delta + 1) * distance c) (near c) (far c)) c).
Proof. reflexivity. Qed.

Lemma adjFOVWithoutZoom_eq (delta : R) (c : Camera) :
  adjFOVWithoutZoom delta c
  = updatePosition
      (set_distance
         (tan (fov c / 2) * distance c
          / tan (clamp (fov c + delta) minFOV maxFOV / 2))
         (set_fov (clamp (fov c + delta) minFOV maxFOV) c)).
Proof. reflexivity. Qed.

Lemma pan_eq (dx dy dz : R) (c : Camera) :
  pan dx dy dz c
  = let adjustedPanSpeed := PAN_SPEED * distance c * fov c in
    let p :=
      Vec3.scaleAndAdd
        (Vec3.scaleAndAdd
           (Vec3.scale (viewRight c) (- dx * adjustedPanSpeed))
           (viewUp c) (dy * adjustedPanSpeed))
        (viewDir c) (dz * adjustedPanSpeed) in
    updatePosition
      (set_position (Vec3.add (position c) p)
                    (set_target (Vec3.add (target c) p) c)).
Proof. reflexivity. Qed.

Lemma orbit_zero (dx dy : R) (c : Camera) :
  dx = 0 -> dy = 0 -> positionDerived c -> elevationInRange c ->
  orbit dx dy c = c.
Proof.
  intros -> -> Hp He. rewrite orbit_eq.
  replace (azimuth c - 0 * ROT_SPEED) with (azimuth c) by lra.
  replace (elevation c + 0 * ROT_SPEED) with (elevation c) by lra.
  rewrite set_azimuth_same, clamp_inside by exact He.
  rewrite set_elevation_same. apply updatePosition_id, Hp.
Qed.

Lemma zoom_zero (delta : R) (c : Camera) :
  delta = 0 -> positionDerived c -> distanceInRange c -> zoom delta c = c.
Proof.
  intros -> Hp Hd. rewrite zoom_eq.
  replace ((0 + 1) * distance c) with (distance c) by lra.
  rewrite clamp_inside by exact Hd.
  rewrite set_distance_same. apply updatePosition_id, Hp.
Qed.

Lemma adjFOV_zero (delta : R) (c : Camera) :
  delta = 0 -> positionDerived c -> fovInRange c -> adjFOV delta c = c.
Proof.
  intros -> Hp Hf. rewrite adjFOV_eq.
  replace (fov c + 0) with (fov c) by lra.
  rewrite clamp_inside by exact Hf.
  rewrite set_fov_same. apply updatePosition_id, Hp.
Qed.

Lemma vec3_add_zero (v p : vec3) :
  vx p = 0 -> vy p = 0 -> vz p = 0 -> Vec3.add v p = v.
Proof.
  intros Hx Hy Hz. destruct v as [a b c]. unfold Vec3.add. simpl.
  rewrite Hx, Hy, Hz. f_equal; lra.
Qed.

Lemma pan_zero (dx dy dz : R) (c : Camera) :
  dx = 0 -> dy = 0 -> dz = 0 -> positionDerived c -> pan dx dy dz c = c.
Proof.
  intros -> -> -> Hp. rewrite pan_eq. cbv zeta.
  rewrite !vec3_add_zero by (simpl; ring).
  rewrite set_target_same, set_position_same. apply updatePosition_id, Hp.
Qed.

(** X6.  On a camera whose position is derived and whose elevation,
    distance and field of view are within their ranges, [orbit], [pan],
    [zoom] and [adjFOV] called with zero deltas return the camera
    unchanged. *)
Theorem zero_delta_calls_are_noops (c : Camera)
        (Hpos : positionDerived c) (Hel : elevationInRange c)
        (Hdist : distanceInRange c) (Hfov : fovInRange c) :
  orbit 0 0 c = c /\ pan 0 0 0 c = c /\ zoom 0 c = c /\ adjFOV 0 c = c.
Proof.
  repeat split; auto using orbit_zero, pan_zero, zoom_zero, adjFOV_zero.
Qed.

Lemma b2n_diff_zero (a b : bool) (k : R) : a = b -> (b2n a - b2n b) * k = 0.
Proof. intros ->. ring. Qed.

Lemma guarded_invoke_same_camera (b : bool) (m : Call) (w : World) :
  perform m (camera w) = camera w ->
  camera (if b then invoke m w else w) = camera w.
Proof. intros H. destruct b; [exact H | reflexivity]. Qed.

Lemma handleInputs_opposing (s : R) (w : World) :
  positionDerived (camera w) -> elevationInRange (camera w) ->
  distanceInRange (camera w) -> fovInRange (camera w) ->
  opposingKeysEqual (keyState w) ->
  keyFOVWithoutZoom w = false ->
  camera (handleInputs s w) = camera w.
Proof.
  intros Hp He Hd Hf (H1 & H2 & H3 & H4 & H5 & H6) Hn.
  unfold handleInputs. cbv zeta.
  destruct w as [c st ks kO kP kZ kF kW cs]. simpl in *. subst kW.
  assert (Hz : forall k, (b2n (z_out (ks_zoom ks)) - b2n (z_in (ks_zoom ks)))
                         * k * s = 0).
  { intros k. rewrite H6. ring. }
  destruct kO, kP, kZ, kF; simpl;
    repeat first
      [ rewrite orbit_zero by (auto using b2n_diff_zero)
      | rewrite pan_zero by (auto using b2n_diff_zero)
      | rewrite zoom_zero by auto
      | rewrite adjFOV_zero by auto ];
    reflexivity.
Qed.

(** X7.  When every pair of opposing keys is in the same state (both held
    or both released) and [keyFOVWithoutZoom] is not set, a [handleInputs]
    tick leaves the camera as it was, whatever other flags are set,
    provided the camera's position is derived and its elevation, distance
    and field of view are within their ranges: the deltas are zero and
    [orbit], [pan], [zoom] and [adjFOV] with zero deltas write back what
    they read. *)
Theorem opposing_keys_cancel (s : R) (w : World)
        (Hpos : positionDerived (camera w))
        (Hel : elevationInRange (camera w))
        (Hdist : distanceInRange (camera w))
        (Hfov : fovInRange (camera w))
        (Hkeys : opposingKeysEqual (keyState w))
        (Hnot : keyFOVWithoutZoom w = false) :
  camera (handleInputs s w) = camera w.
Proof. apply handleInputs_opposing; assumption. Qed.

(** ** What every method call keeps *)

Lemma defaults_fov_in_range : minFOV <= d_fov defaults <= maxFOV.
Proof. simpl. unfold minFOV, maxFOV, toRad. pose proof PI_RGT_0. lra. Qed.

Lemma perform_elevationInRange (m : Call) (c : Camera) :
  elevationInRange c -> elevationInRange (perform m c).
Proof.
  intros H. pose proof elevationLimit_pos as Hl.
  destruct m as [dx dy|dx dy dz|d|d|d|a k|]; cbn [perform]; try exact H.
  - unfold elevationInRange. rewrite orbit_eq. simpl.
    apply clamp_bounds. unfold elevationLimit in *. lra.
  - unfold elevationInRange, elevationLimit in *.
    destruct a, k; simpl in *; lra.
Qed.

Lemma perform_fovInRange (m : Call) (c : Camera) :
  fovInRange c -> fovInRange (perform m c).
Proof.
  intros H. pose proof defaults_fov_in_range as Hd.
  destruct m as [dx dy|dx dy dz|d|d|d|a k|]; cbn [perform]; try exact H.
  - unfold fovInRange. rewrite adjFOV_eq. simpl.
    apply clamp_bounds, minFOV_le_maxFOV.
  - unfold fovInRange. rewrite adjFOVWithoutZoom_eq. simpl.
    apply clamp_bounds, minFOV_le_maxFOV.
  - unfold fovInRange. destruct a, k; exact Hd.
Qed.

Lemma perform_fixed_fields (m : Call) (c : Camera) :
  near (perform m c) = near c /\ far (perform m c) = far c /\
  worldUp (perform m c) = worldUp c /\
  invertMatrix (perform m c) = invertMatrix c.
Proof.
  destruct m as [dx dy|dx dy dz|d|d|d|a k|]; try (repeat split; fail).
  destruct a, k; repeat split.
Qed.

(** X8.  Whatever method is called with whatever arguments, the elevation
    stays within the pole limit and the field of view within
    [[minFOV, maxFOV]], the position is the derived one afterwards, and the
    clip distances, the up axis and the matrix convention are not
    written. *)
Theorem every_call_keeps_pose_ranges (m : Call) (c : Camera)
        (Hel : elevationInRange c) (Hfov : fovInRange c) :
  elevationInRange (perform m c) /\
  fovInRange (perform m c) /\
  positionDerived (perform m c) /\
  near (perform m c) = near c /\ far (perform m c) = far c /\
  worldUp (perform m c) = worldUp c /\
  invertMatrix (perform m c) = invertMatrix c.
Proof.
  split; [apply perform_elevationInRange, Hel|].
  split; [apply perform_fovInRange, Hfov|].
  split; [apply perform_derived|].
  apply perform_fixed_fields.
Qed.

(** ** The handlers act on the camera through its methods only *)

Lemma replay_app (ms1 ms2 : list Call) (c : Camera) :
  replay (ms1 ++ ms2) c = replay ms2 (replay ms1 c).
Proof. unfold replay. apply fold_left_app. Qed.

Lemma actsThrough_nil (w w' : World) :
  camera w' = camera w -> calls w' = calls w -> actsThrough [] w w'.
Proof.
  intros Hc Hl. split; [exact Hc | rewrite Hl; symmetry; apply app_nil_r].
Qed.

Lemma actsThrough_invoke (m : Call) (w : World) :
  actsThrough [m] w (invoke m w).
Proof. split; reflexivity. Qed.

Lemma actsThrough_trans (ms1 ms2 : list Call) (w1 w2 w3 : World) :
  actsThrough ms1 w1 w2 -> actsThrough ms2 w2 w3 ->
  actsThrough (ms1 ++ ms2) w1 w3.
Proof.
  intros [Hc1 Hl1] [Hc2 Hl2]. split.
  - rewrite Hc2, Hc1. symmetry. apply replay_app.
  - rewrite Hl2, Hl1. symmetry. apply app_assoc.
Qed.

Lemma actsThrough_guarded (b : bool) (m : Call) (w : World) :
  actsThrough (if b then [m] else []) w (if b then invoke m w else w).
Proof.
  destruct b; [apply actsThrough_invoke | apply actsThrough_nil; reflexivity].
Qed.

Lemma handleInputs_actsThrough (s : R) (w : World) :
  exists ms, actsThrough ms w (handleInputs s w).
Proof.
  unfold handleInputs. cbv zeta.
  eexists.
  eapply actsThrough_trans; [|apply actsThrough_guarded].
  eapply actsThrough_trans; [|apply actsThrough_guarded].
  eapply actsThrough_trans; [|apply actsThrough_guarded].
  eapply actsThrough_trans; [|apply actsThrough_guarded].
  apply actsThrough_guarded.
Qed.

Lemma keyCamera_camera_calls (e : Event) (val : bool) (w : World) :
  camera (keyCamera e val w) = camera w /\
  calls (keyCamera e val w) = calls w.
Proof.
  unfold keyCamera. destruct (keyIgnored e); [split; reflexivity|].
  destruct (keyMap (key e)); split; reflexivity.
Qed.

Lemma step_actsThrough (i : Input) (w : World) :
  exists ms, actsThrough ms w (step i w).
Proof.
  destruct i as [e|e|e|e|e|e|e|s]; simpl.
  - exists []. apply actsThrough_nil; reflexivity.
  - unfold mousedown. cbv zeta.
    destruct (button e =? 0)%Z, (button e =? 2)%Z, (button e =? 1)%Z;
      simpl;
      first [ exists []; apply actsThrough_nil; reflexivity
            | exists [CallReset (altKey e) (ctrlKey e); CallUpdatePosition];
              split; [reflexivity|]; simpl;
              rewrite <- app_assoc; reflexivity ].
  - unfold mouseup.
    destruct (button e =? 0)%Z, (button e =? 2)%Z;
      exists []; apply actsThrough_nil; reflexivity.
  - unfold mousemove. cbv zeta. simpl.
    set (dx := clientX e - lastX (state w)).
    set (dy := clientY e - lastY (state w)).
    destruct (orbitActive (state w)), (panActive (state w)); simpl;
      first [ exists []; apply actsThrough_nil; reflexivity
            | exists [CallOrbit dx dy]; split; reflexivity
            | exists [CallPan dx dy 0]; split; reflexivity
            | exists [CallOrbit dx dy; CallPan dx dy 0];
              split; [reflexivity|]; simpl;
              rewrite <- app_assoc; reflexivity ].
  - unfold wheel.
    destruct (altKey e); [|destruct (ctrlKey e)];
      eexists; apply actsThrough_invoke.
  - unfold keydown.
    destruct (keyCamera_camera_calls
                e true
                (if (key e =? "Alt")%string then w
                 else if (key e =? " ")%string
                      then invoke (CallReset (altKey e) (ctrlKey e)) w
                      else w)) as [Hc Hl].
    unfold actsThrough. rewrite Hc, Hl.
    destruct (key e =? "Alt")%string;
      [exists []; apply actsThrough_nil; reflexivity|].
    destruct (key e =? " ")%string;
      [eexists; apply actsThrough_invoke
      |exists []; apply actsThrough_nil; reflexivity].
  - destruct (keyCamera_camera_calls e false w) as [Hc Hl].
    exists []. apply actsThrough_nil; assumption.
  - apply handleInputs_actsThrough.
Qed.

Lemma run_actsThrough (inputs : list Input) (w : World) :
  exists ms, actsThrough ms w (run inputs w).
Proof.
  revert w. induction inputs as [|i inputs IH]; intros w.
  - exists []. apply actsThrough_nil; reflexivity.
  - simpl. destruct (step_actsThrough i w) as [ms1 H1].
    destruct (IH (step i w)) as [ms2 H2].
    exists (ms1 ++ ms2). eapply actsThrough_trans; eassumption.
Qed.

(** X9.  Whatever inputs arrive in whatever order, the camera is the
    initial camera after the method calls made so far: no handler writes a
    field of the camera other than by calling one of its methods. *)
Theorem camera_changes_only_through_calls (inputs : list Input) :
  camera (run inputs initialWorld)
  = replay (calls (run inputs initialWorld)) (Camera_new defaults).
Proof.
  destruct (run_actsThrough inputs initialWorld) as [ms [Hc Hl]].
  rewrite Hc, Hl. reflexivity.
Qed.

(** ** Invariants of every reachable world *)

Lemma poseInvariant_initial : poseInvariant (Camera_new defaults).
Proof.
  pose proof elevationLimit_pos. pose proof defaults_fov_in_range.
  unfold poseInvariant, elevationInRange, fovInRange.
  repeat split; simpl in *; try lra.
Qed.

Lemma poseInvariant_perform (m : Call) (c : Camera) :
  poseInvariant c -> poseInvariant (perform m c).
Proof.
  intros (Hp & He & Hf & Hn & Hfa & Hw & Hi).
  destruct (perform_fixed_fields m c) as (En & Ef & Ew & Ei).
  unfold poseInvariant. rewrite En, Ef, Ew, Ei.
  split; [apply perform_derived|].
  split; [apply perform_elevationInRange, He|].
  split; [apply perform_fovInRange, Hf|].
  repeat split; assumption.
Qed.

Lemma poseInvariant_replay (ms : list Call) (c : Camera) :
  poseInvariant c -> poseInvariant (replay ms c).
Proof.
  revert c. induction ms as [|m ms IH]; intros c H; [exact H|].
  simpl. apply IH, poseInvariant_perform, H.
Qed.

(** X10.  After any sequence of inputs from the initial world, the camera's
    position is the derived one, its elevation is within the pole limit,
    its field of view within [[minFOV, maxFOV]], and [near], [far],
    [worldUp] and [invertMatrix] are as constructed. *)
Theorem reachable_pose_invariant (inputs : list Input) :
  let c := camera (run inputs initialWorld) in
  positionDerived c /\
  - (PI / 2 - 0.01) <= elevation c <= PI / 2 - 0.01 /\
  minFOV <= fov c <= maxFOV /\
  near c = 0.1 /\ far c = 100 /\ worldUp c = Vec3.fromValues 0 1 0 /\
  invertMatrix c = true.
Proof.
  cbv zeta. destruct (run_actsThrough inputs initialWorld) as [ms [Hc _]].
  rewrite Hc. apply (poseInvariant_replay ms), poseInvariant_initial.
Qed.

(** ** The activity flags *)

Lemma sameKeys_refl (w : World) : sameKeys w w.
Proof. repeat split. Qed.

Lemma sameKeys_trans (w1 w2 w3 : World) :
  sameKeys w1 w2 -> sameKeys w2 w3 -> sameKeys w1 w3.
Proof.
  unfold sameKeys. intros (A & B & C & D & E & F) (A' & B' & C' & D' & E' & F').
  repeat split; congruence.
Qed.

Lemma sameKeys_invoke (m : Call) (w : World) : sameKeys w (invoke m w).
Proof. repeat split. Qed.

Lemma sameKeys_set_state (s : PointerState) (w : World) :
  sameKeys w (set_state s w).
Proof. repeat split. Qed.

Lemma sameKeys_guarded (b : bool) (m : Call) (w : World) :
  sameKeys w (if b then invoke m w else w).
Proof. destruct b; [apply sameKeys_invoke | apply sameKeys_refl]. Qed.

Lemma handleInputs_sameKeys (s : R) (w : World) :
  sameKeys w (handleInputs s w).
Proof.
  unfold handleInputs. cbv zeta.
  eapply sameKeys_trans; [|apply sameKeys_guarded].
  eapply sameKeys_trans; [|apply sameKeys_guarded].
  eapply sameKeys_trans; [|apply sameKeys_guarded].
  eapply sameKeys_trans; [|apply sameKeys_guarded].
  apply sameKeys_guarded.
Qed.

Lemma handleInputs_state (s : R) (w : World) :
  state (handleInputs s w) = state w.
Proof.
  unfold handleInputs. cbv zeta.
  destruct w as [c st ks kO kP kZ kF kW cs]. simpl.
  destruct kO, kP, kZ, kF, kW; reflexivity.
Qed.

Lemma handleInputs_calls (s : R) (w : World) :
  calls (handleInputs s w) = calls w ++ tickCalls s w.
Proof.
  unfold handleInputs, tickCalls. cbv zeta.
  destruct w as [c st ks kO kP kZ kF kW cs]. simpl.
  destruct kO, kP, kZ, kF, kW; simpl;
    rewrite <- ?app_assoc, ?app_nil_r; reflexivity.
Qed.

(** X11.  A [handleInputs] tick reads the keyboard state and writes none
    of it: [keyState], the five flags and the pointer state are as before.
    It makes one call per set flag, in the order orbit, pan, zoom, adjFOV,
    adjFOVWithoutZoom, each with the deltas computed from the key state at
    the start of the tick; with no flag set it does nothing at all. *)
Theorem handleInputs_frame_and_calls (s : R) (w : World) :
  keyState (handleInputs s w) = keyState w /\
  keyOrbit (handleInputs s w) = keyOrbit w /\
  keyPan (handleInputs s w) = keyPan w /\
  keyZoom (handleInputs s w) = keyZoom w /\
  keyFOV (handleInputs s w) = keyFOV w /\
  keyFOVWithoutZoom (handleInputs s w) = keyFOVWithoutZoom w /\
  state (handleInputs s w) = state w /\
  calls (handleInputs s w) = calls w ++ tickCalls s w /\
  camera (handleInputs s w) = replay (tickCalls s w) (camera w) /\
  (keyOrbit w || keyPan w || keyZoom w || keyFOV w || keyFOVWithoutZoom w
   = false -> handleInputs s w = w).
Proof.
  destruct (handleInputs_sameKeys s w) as (A & B & C & D & E & F).
  repeat (split; [assumption|]).
  split; [apply handleInputs_state|].
  split; [apply handleInputs_calls|].
  split.
  - unfold handleInputs, tickCalls. cbv zeta.
    destruct w as [c st ks kO kP kZ kF kW cs]. simpl.
    destruct kO, kP, kZ, kF, kW; reflexivity.
  - intros H. unfold handleInputs. cbv zeta.
    destruct w as [c st ks kO kP kZ kF kW cs]. simpl in *.
    destruct kO, kP, kZ, kF, kW; try discriminate. reflexivity.
Qed.

Lemma flagsConsistent_sameKeys (w w' : World) :
  sameKeys w w' -> flagsConsistent w -> flagsConsistent w'.
Proof.
  unfold sameKeys, flagsConsistent.
  intros (A & B & C & D & E & F). rewrite A, B, C, D, E, F. trivial.
Qed.

Lemma keyCamera_flagsConsistent (e : Event) (val : bool) (w : World) :
  flagsConsistent w -> flagsConsistent (keyCamera e val w).
Proof.
  intros H. unfold keyCamera. destruct (keyIgnored e); [exact H|].
  destruct (keyMap (key e)) as [b|]; [|exact H].
  unfold flagsConsistent, zoomHeld. cbn.
  destruct (ctrlKey e), (altKey e);
    destruct (z_in _ || z_out _); repeat split.
Qed.

Lemma mousedown_sameKeys (e : Event) (w : World) : sameKeys w (mousedown e w).
Proof.
  unfold mousedown. cbv zeta.
  destruct (button e =? 0)%Z, (button e =? 2)%Z, (button e =? 1)%Z;
    repeat split.
Qed.

Lemma mouseup_sameKeys (e : Event) (w : World) : sameKeys w (mouseup e w).
Proof.
  unfold mouseup. destruct (button e =? 0)%Z, (button e =? 2)%Z; repeat split.
Qed.

Lemma mousemove_sameKeys (e : Event) (w : World) :
  sameKeys w (mousemove e w).
Proof.
  unfold mousemove. cbv zeta. simpl.
  destruct (orbitActive (state w)), (panActive (state w)); repeat split.
Qed.

Lemma wheel_sameKeys (e : Event) (w : World) : sameKeys w (wheel e w).
Proof.
  unfold wheel. destruct (altKey e); [|destruct (ctrlKey e)]; repeat split.
Qed.

Lemma step_flagsConsistent (i : Input) (w : World) :
  flagsConsistent w -> flagsConsistent (step i w).
Proof.
  intros H. destruct i as [e|e|e|e|e|e|e|s]; simpl.
  - exact H.
  - eapply flagsConsistent_sameKeys; [apply mousedown_sameKeys | exact H].
  - eapply flagsConsistent_sameKeys; [apply mouseup_sameKeys | exact H].
  - eapply flagsConsistent_sameKeys; [apply mousemove_sameKeys | exact H].
  - eapply flagsConsistent_sameKeys; [apply wheel_sameKeys | exact H].
  - unfold keydown. apply keyCamera_flagsConsistent.
    destruct (key e =? "Alt")%string; [exact H|].
    destruct (key e =? " ")%string; [|exact H].
    eapply flagsConsistent_sameKeys; [apply sameKeys_invoke | exact H].
  - apply keyCamera_flagsConsistent, H.
  - eapply flagsConsistent_sameKeys; [apply handleInputs_sameKeys | exact H].
Qed.

Lemma run_flagsConsistent (inputs : list Input) (w : World) :
  flagsConsistent w -> flagsConsistent (run inputs w).
Proof.
  revert w. induction inputs as [|i inputs IH]; intros w H; [exact H|].
  simpl. apply IH, step_flagsConsistent, H.
Qed.

(** X12.  After any sequence of inputs from the initial world, [keyOrbit]
    and [keyPan] say whether some orbit, respectively pan, direction is
    held; one of [keyZoom], [keyFOV], [keyFOVWithoutZoom] is set exactly
    when a zoom key is held; and [keyZoom] is never set together with
    [keyFOV] or with [keyFOVWithoutZoom]. *)
Theorem reachable_flags_consistent (inputs : list Input) :
  let w := run inputs initialWorld in
  keyOrbit w = anyOrbit (ks_orbit (keyState w)) /\
  keyPan w = anyPan (ks_pan (keyState w)) /\
  keyZoom w || keyFOV w || keyFOVWithoutZoom w
  = z_in (ks_zoom (keyState w)) || z_out (ks_zoom (keyState w)) /\
  keyZoom w && (keyFOV w || keyFOVWithoutZoom w) = false.
Proof.
  cbv zeta. apply (run_flagsConsistent inputs initialWorld).
  repeat split.
Qed.

(** X13.  In a world the inputs can lead to, a tick on which no key is held
    changes nothing: no method is called and the camera stays as it is. *)
Theorem idle_tick_is_noop (inputs : list Input) (s : R)
        (Hidle :
           let k := keyState (run inputs initialWorld) in
           anyOrbit (ks_orbit k) = false /\ anyPan (ks_pan k) = false /\
           z_in (ks_zoom k) || z_out (ks_zoom k) = false) :
  handleInputs s (run inputs initialWorld) = run inputs initialWorld.
Proof.
  cbv zeta in Hidle. destruct Hidle as (HO & HP & HZ).
  pose proof (run_flagsConsistent inputs initialWorld) as Hc.
  assert (H0 : flagsConsistent initialWorld) by (repeat split).
  specialize (Hc H0). destruct Hc as (A & B & C & _).
  unfold zoomHeld in C. rewrite HO in A. rewrite HP in B. rewrite HZ in C.
  set (w := run inputs initialWorld) in *.
  unfold handleInputs. cbv zeta.
  destruct w as [c st ks kO kP kZ kF kW cs]. simpl in *. subst kO kP.
  destruct kZ, kF, kW; try discriminate. reflexivity.
Qed.

(** ** Pointer gestures *)

(** Reduction of the projections of a world and of its pointer state, and of
    nothing else. *)
Ltac world_simpl :=
  cbn [camera state keyState keyOrbit keyPan keyZoom keyFOV
       keyFOVWithoutZoom calls orbitActive panActive lastX lastY
       set_state invoke].

(** X14.  With no gesture in progress, a button press followed by a move
    makes these calls and no others: the reset pair if the button is the
    middle one, [orbit(dx, dy)] if it is the left one, [pan(dx, dy)] if it
    is the right one, where [(dx, dy)] is the cursor displacement since the
    press. *)
Theorem press_then_move (e_down e_move : Event) (w : World)
        (Hidle : orbitActive (state w) = false /\ panActive (state w) = false) :
  let dx := clientX e_move - clientX e_down in
  let dy := clientY e_move - clientY e_down in
  calls (mousemove e_move (mousedown e_down w))
  = calls w
    ++ (if (button e_down =? 1)%Z
        then [CallReset (altKey e_down) (ctrlKey e_down); CallUpdatePosition]
        else [])
    ++ (if (button e_down =? 0)%Z then [CallOrbit dx dy] else [])
    ++ (if (button e_down =? 2)%Z then [CallPan dx dy 0] else []).
Proof.
  destruct Hidle as [Ho Hp]. cbv zeta.
  unfold mousemove, mousedown. cbv zeta.
  destruct (button e_down =? 0)%Z, (button e_down =? 2)%Z,
           (button e_down =? 1)%Z;
    simpl; rewrite ?Ho, ?Hp; simpl;
    rewrite <- ?app_assoc, ?app_nil_r; reflexivity.
Qed.

Lemma mousedown_state (e : Event) (w : World) :
  state (mousedown e w)
  = mkPointerState (orbitActive (state w) || (button e =? 0)%Z)
                   (panActive (state w) || (button e =? 2)%Z)
                   (clientX e) (clientY e).
Proof.
  unfold mousedown. cbv zeta.
  destruct (button e =? 0)%Z, (button e =? 2)%Z, (button e =? 1)%Z;
    world_simpl; rewrite ?orb_true_r, ?orb_false_r; reflexivity.
Qed.

Lemma mouseup_state (e : Event) (w : World) :
  state (mouseup e w)
  = mkPointerState (orbitActive (state w) && negb (button e =? 0)%Z)
                   (panActive (state w) && negb (button e =? 2)%Z)
                   (lastX (state w)) (lastY (state w)).
Proof.
  unfold mouseup.
  destruct (button e =? 0)%Z, (button e =? 2)%Z;
    world_simpl; rewrite ?andb_true_r, ?andb_false_r;
    try reflexivity; destruct (state w); reflexivity.
Qed.

Lemma mouseup_camera_calls (e : Event) (w : World) :
  camera (mouseup e w) = camera w /\ calls (mouseup e w) = calls w.
Proof.
  unfold mouseup.
  destruct (button e =? 0)%Z, (button e =? 2)%Z; split; reflexivity.
Qed.

Lemma mousemove_idle (e : Event) (w : World) :
  orbitActive (state w) = false -> panActive (state w) = false ->
  calls (mousemove e w) = calls w /\ camera (mousemove e w) = camera w.
Proof.
  intros Ho Hp. unfold mousemove. cbv zeta. world_simpl.
  rewrite Ho, Hp. split; reflexivity.
Qed.

(** X15.  Releasing the button that was pressed ends the gesture: with no
    gesture in progress before the press, neither gesture is active after
    the release and a move then calls nothing and leaves the camera as it
    is. *)
Theorem release_ends_gesture (e_down e_up e_move : Event) (w : World)
        (Hidle : orbitActive (state w) = false /\ panActive (state w) = false)
        (Hsame : button e_up = button e_down) :
  let w' := mouseup e_up (mousedown e_down w) in
  orbitActive (state w') = false /\
  panActive (state w') = false /\
  calls (mousemove e_move w') = calls w' /\
  camera (mousemove e_move w') = camera w'.
Proof.
  destruct Hidle as [Ho Hp]. cbv zeta.
  assert (Ho' : orbitActive (state (mouseup e_up (mousedown e_down w)))
                = false).
  { rewrite mouseup_state, mousedown_state, Hsame, Ho.
    cbn [orbitActive orb]. apply andb_negb_r. }
  assert (Hp' : panActive (state (mouseup e_up (mousedown e_down w)))
                = false).
  { rewrite mouseup_state, mousedown_state, Hsame, Hp.
    cbn [panActive orb]. apply andb_negb_r. }
  split; [exact Ho'|]. split; [exact Hp'|].
  apply mousemove_idle; assumption.
Qed.

(** X16.  During an orbit gesture each move orbits by the cursor
    displacement since the previous move event, not since the press: two
    moves in a row call [orbit] with the displacement from the recorded
    cursor position to the first move, then with the displacement from the
    first move to the second, and the recorded position ends at the
    second. *)
Theorem drag_deltas_are_incremental (e1 e2 : Event) (w : World)
        (Horbit : orbitActive (state w) = true)
        (Hpan : panActive (state w) = false) :
  calls (mousemove e2 (mousemove e1 w))
  = calls w
    ++ [CallOrbit (clientX e1 - lastX (state w))
                  (clientY e1 - lastY (state w));
        CallOrbit (clientX e2 - clientX e1) (clientY e2 - clientY e1)] /\
  lastX (state (mousemove e2 (mousemove e1 w))) = clientX e2 /\
  lastY (state (mousemove e2 (mousemove e1 w))) = clientY e2.
Proof.
  unfold mousemove. cbv zeta. world_simpl. rewrite Horbit, Hpan.
  world_simpl. rewrite <- app_assoc. repeat split.
Qed.

(** ** Keys *)

Lemma keydown_mapped (e : Event) (b : KeyBinding) (w : World) :
  keyMap (key e) = Some b -> keydown e w = keyCamera e true w.
Proof.
  intros Hb. unfold keydown.
  destruct (key e =? "Alt")%string eqn:Ha.
  - reflexivity.
  - destruct (key e =? " ")%string eqn:Hs; [|reflexivity].
    apply String.eqb_eq in Hs. rewrite Hs in Hb. discriminate Hb.
Qed.

Lemma keyCamera_keyState (e : Event) (val : bool) (b : KeyBinding) (w : World) :
  keyIgnored e = false -> keyMap (key e) = Some b ->
  keyState (keyCamera e val w) = assignKey b val (keyState w).
Proof. intros Hi Hb. unfold keyCamera. rewrite Hi, Hb. reflexivity. Qed.

Lemma keyHeld_assign_same (b : KeyBinding) (val : bool) (k : KeyState) :
  keyHeld b (assignKey b val k) = val.
Proof. destruct b as [[]|[]|[]]; reflexivity. Qed.

Lemma keyHeld_assign_other (b b' : KeyBinding) (val : bool) (k : KeyState) :
  b' <> b -> keyHeld b' (assignKey b val k) = keyHeld b' k.
Proof.
  intros Hne.
  destruct b as [[]|[]|[]], b' as [[]|[]|[]];
    try reflexivity; contradiction Hne; reflexivity.
Qed.

(** X17.  A recognized key event writes exactly one entry of [keyState]:
    the direction bound to the key takes the value of the event (held on
    key-down, released on key-up) and every other direction keeps its
    value. *)
Theorem key_event_writes_one_direction
        (e : Event) (val : bool) (b : KeyBinding) (w : World)
        (Hrec : keyIgnored e = false) (Hmap : keyMap (key e) = Some b) :
  keyHeld b (keyState (keyCamera e val w)) = val /\
  (forall b', b' <> b ->
              keyHeld b' (keyState (keyCamera e val w))
              = keyHeld b' (keyState w)) /\
  keydown e w = keyCamera e true w /\
  keyup e w = keyCamera e false w.
Proof.
  rewrite (keyCamera_keyState e val b w Hrec Hmap).
  split; [apply keyHeld_assign_same|].
  split; [intros b' Hne; apply keyHeld_assign_other, Hne|].
  split; [apply (keydown_mapped e b), Hmap | reflexivity].
Qed.

Lemma category_flag_after_press (e : Event) (b : KeyBinding) (w : World) :
  keyIgnored e = false -> keyMap (key e) = Some b ->
  match b with
  | BOrbit _ => keyOrbit (keyCamera e true w) = true
  | BPan _ => keyPan (keyCamera e true w) = true
  | BZoom _ =>
      keyZoom (keyCamera e true w) || keyFOV (keyCamera e true w)
      || keyFOVWithoutZoom (keyCamera e true w) = true
  end.
Proof.
  intros Hi Hb. unfold keyCamera. rewrite Hi, Hb.
  destruct b as [[]|[]|[]]; cbn;
    rewrite ?orb_true_r; try reflexivity;
    destruct (ctrlKey e), (altKey e); reflexivity.
Qed.

(** X18.  A key whose release is ignored stays held: after a recognized
    key-down, a key-up that the guard of [keyCamera] rejects (for instance
    because the focus has moved into an input field) leaves the direction
    set in [keyState] and the flag of its category set, so every later tick
    keeps moving the camera. *)
Theorem ignored_keyup_leaves_key_held
        (e_down e_up : Event) (b : KeyBinding) (w : World)
        (Hrec : keyIgnored e_down = false)
        (Hmap : keyMap (key e_down) = Some b)
        (Hign : keyIgnored e_up = true) :
  let w' := keyup e_up (keydown e_down w) in
  keyHeld b (keyState w') = true /\
  match b with
  | BOrbit _ => keyOrbit w' = true
  | BPan _ => keyPan w' = true
  | BZoom _ => keyZoom w' || keyFOV w' || keyFOVWithoutZoom w' = true
  end.
Proof.
  cbv zeta. unfold keyup. rewrite (keyCamera_ignored _ _ _ Hign).
  rewrite (keydown_mapped e_down b w Hmap).
  split.
  - rewrite (keyCamera_keyState _ _ b w Hrec Hmap).
    apply keyHeld_assign_same.
  - apply category_flag_after_press; assumption.
Qed.

(** X19.  The zoom category follows the modifiers of the latest recognized
    key event, whichever key it is for: while a zoom key is held, a
    recognized event for an orbit or pan key sets [keyZoom], [keyFOV] and
    [keyFOVWithoutZoom] from that event's Ctrl and Alt alone. *)
Theorem other_key_reclassifies_zoom
        (e : Event) (val : bool) (b : KeyBinding) (w : World)
        (Hrec : keyIgnored e = false) (Hmap : keyMap (key e) = Some b)
        (Hother : match b with BZoom _ => False | _ => True end)
        (Hheld : z_in (ks_zoom (keyState w)) || z_out (ks_zoom (keyState w))
                 = true) :
  let w' := keyCamera e val w in
  ks_zoom (keyState w') = ks_zoom (keyState w) /\
  keyZoom w' = negb (ctrlKey e || altKey e) /\
  keyFOV w' = ctrlKey e /\
  keyFOVWithoutZoom w' = altKey e.
Proof.
  cbv zeta. unfold keyCamera. rewrite Hrec, Hmap.
  destruct b as [d|d|d]; [| |contradiction]; cbn; rewrite Hheld;
    rewrite ?andb_true_r; repeat split.
Qed.

(** X20.  A repeated key event changes nothing more: [keyCamera] applied
    twice with the same event and value gives the world it gives when
    applied once, so the key-downs of auto-repeat are harmless. *)
Theorem keyCamera_idempotent (e : Event) (val : bool) (w : World) :
  keyCamera e val (keyCamera e val w) = keyCamera e val w.
Proof.
  unfold keyCamera. destruct (keyIgnored e); [reflexivity|].
  destruct (keyMap (key e)) as [[[]|[]|[]]|]; reflexivity.
Qed.

(** ** [reset] *)

Lemma reset_plain_eq (c : Camera) :
  reset false false c
  = updatePosition
      (mkCamera (Vec3.clone (d_target defaults)) (d_distance defaults)
                (position c) (d_azimuth defaults) (d_elevation defaults)
                (d_fov defaults) (near c) (far c) (worldUp c)
                (invertMatrix c)).
Proof. reflexivity. Qed.

(** X24.  A reset without modifiers brings a camera whose clip distances,
    up axis and matrix convention are those of construction back to
    exactly the camera that [new Camera(defaults)] builds. *)
Theorem plain_reset_restores_initial_camera (c : Camera)
        (Hnear : near c = d_near defaults) (Hfar : far c = d_far defaults)
        (Hup : worldUp c = Vec3.fromValues 0 1 0)
        (Hinv : invertMatrix c = d_invertMatrix defaults) :
  reset false false c = Camera_new defaults.
Proof.
  rewrite reset_plain_eq, Hnear, Hfar, Hup, Hinv. reflexivity.
Qed.

(** X25.  [reset] is idempotent for every modifier combination. *)
Theorem reset_idempotent (alt ctrl : bool) (c : Camera) :
  reset alt ctrl (reset alt ctrl c) = reset alt ctrl c.
Proof. destruct alt, ctrl; reflexivity. Qed.

(** ** The direction of [zoom] *)

(** X29.  The sign of the delta is the direction of the zoom: on a camera
    with a non-negative distance within [[near, far]], a non-negative
    delta never brings the eye closer and a non-positive delta never takes
    it further away, and the result stays within [[near, far]]. *)
Theorem zoom_direction (delta : R) (c : Camera)
        (Hrange : distanceInRange c) (Hnonneg : 0 <= distance c) :
  (0 <= delta -> distance c <= distance (zoom delta c) <= far c) /\
  (delta <= 0 -> near c <= distance (zoom delta c) <= distance c).
Proof.
  destruct Hrange as [Hn Hf]. rewrite zoom_distance.
  assert (Hb : near c <= clamp ((delta + 1) * distance c) (near c) (far c)
               <= far c) by (apply clamp_bounds; lra).
  split; intros Hd.
  - split; [|apply Hb].
    assert (Hx : distance c <= (delta + 1) * distance c) by nra.
    unfold clamp, Rmax, Rmin in *.
    repeat (destruct (Rle_dec _ _)); lra.
  - split; [apply Hb|].
    assert (Hx : (delta + 1) * distance c <= distance c) by nra.
    unfold clamp, Rmax, Rmin in *.
    repeat (destruct (Rle_dec _ _)); lra.
Qed.

End WithNormalize.

(** * Instances

    The statements above at concrete inputs, with the Euclidean
    normalisation for the vector library's [normalize]. *)

(** [zoom_spec] on the default camera moved to distance 10. *)
Lemma zoom_spec_witness :
  let c := set_distance 10 (Camera_new defaults) in
  near c <= far c /\
  distance (zoom 0.1 c) = 11 /\
  distance (zoom (-1) (zoom 0.1 c)) = near c.
Proof.
  intros c.
  assert (Hclip : near c <= far c) by (simpl; lra).
  split; [exact Hclip|].
  destruct (zoom_spec c 0.1 Hclip) as (_ & _ & Hscenario).
  apply Hscenario; simpl; lra.
Defined.

(** [position_derived_after_every_operation] on a tick with the left arrow
    held. *)
Lemma position_derived_witness :
  let w :=
    keydown Vec3.normalizeExact
            (mkEvent 0 0 0 0 "ArrowLeft" "BODY" false false)
            initialWorld in
  keyOrbit w = true /\
  positionDerived (camera w) /\
  positionDerived (camera (handleInputs Vec3.normalizeExact 1 w)).
Proof.
  intros w.
  assert (Hw : positionDerived (camera w)) by reflexivity.
  split; [reflexivity | split; [exact Hw|]].
  destruct (position_derived_after_every_operation
              Vec3.normalizeExact w 1 Hw)
    as (_ & _ & _ & _ & _ & _ & _ & Htick & _).
  exact Htick.
Defined.

(** The default camera sits at [(0, 0, 1)] and looks along [(0, 0, -1)]. *)
Lemma default_camera_position :
  position (Camera_new defaults) = mkVec3 0 0 1.
Proof.
  unfold Camera_new, updatePosition, set_position, Vec3.scaleAndAdd.
  cbn [position target distance azimuth elevation defaults d_target
       d_distance d_azimuth d_elevation vx vy vz Vec3.clone Vec3.fromValues].
  rewrite cos_0, sin_0. f_equal; ring.
Qed.

Lemma default_camera_viewDir :
  viewDir Vec3.normalizeExact (Camera_new defaults) = mkVec3 0 0 (-1).
Proof.
  unfold viewDir. rewrite default_camera_position.
  change (target (Camera_new defaults)) with (mkVec3 0 0 0).
  unfold Vec3.normalizeExact, Vec3.length, Vec3.subtract, Vec3.scale.
  cbn [vx vy vz].
  replace ((0 - 0) * (0 - 0) + (0 - 0) * (0 - 0) + (0 - 1) * (0 - 1))
    with 1 by ring.
  rewrite sqrt_1, Rinv_1. f_equal; ring.
Qed.

(** C7 as first stated fails at [pan]: on the default camera, [pan(0, 0, 1)]
    assigns [position] itself (line 122) before it calls [updatePosition],
    moving it from [(0, 0, 1)] to [(0, 0, 1 - PAN_SPEED * fov)]. *)
Lemma pan_assigns_position_directly :
  let c := Camera_new defaults in
  pan Vec3.normalizeExact 0 0 1 c
  = updatePosition (panAssignments Vec3.normalizeExact 0 0 1 c) /\
  position c = mkVec3 0 0 1 /\
  position (panAssignments Vec3.normalizeExact 0 0 1 c)
  = mkVec3 0 0 (1 - PAN_SPEED * toRad 60) /\
  position (panAssignments Vec3.normalizeExact 0 0 1 c) <> position c.
Proof.
  cbv zeta.
  assert (Hpos :
            position (panAssignments Vec3.normalizeExact 0 0 1
                                     (Camera_new defaults))
            = mkVec3 0 0 (1 - PAN_SPEED * toRad 60)).
  { change (position (panAssignments Vec3.normalizeExact 0 0 1
                                     (Camera_new defaults)))
      with (Vec3.add (position (Camera_new defaults))
                     (panVector Vec3.normalizeExact 0 0 1
                                (Camera_new defaults))).
    unfold panVector. cbv zeta.
    rewrite default_camera_position, default_camera_viewDir.
    change (distance (Camera_new defaults)) with 1.
    change (fov (Camera_new defaults)) with (toRad 60).
    generalize (viewRight Vec3.normalizeExact (Camera_new defaults))
               (viewUp Vec3.normalizeExact (Camera_new defaults)).
    intros [r1 r2 r3] [u1 u2 u3].
    unfold Vec3.add, Vec3.scaleAndAdd, Vec3.scale. cbn [vx vy vz].
    f_equal; ring. }
  split; [reflexivity|].
  split; [apply default_camera_position|].
  split; [exact Hpos|].
  rewrite Hpos, default_camera_position. intros Heq.
  apply (f_equal vz) in Heq. cbn [vz] in Heq.
  unfold PAN_SPEED, toRad in Heq. pose proof PI_RGT_0. lra.
Qed.

(** [ignored_key_event_mutates_nothing] on a key-down of [w] typed into an
    input field, after the camera has been zoomed. *)
Lemma ignored_key_event_witness :
  let e := mkEvent 0 0 0 0 "w" "INPUT" false false in
  let w := zoomedWorld Vec3.normalizeExact in
  tagName e = "INPUT"%string /\
  keydown Vec3.normalizeExact e w = w /\
  keyup e w = w.
Proof.
  intros e w.
  assert (Hin : tagName e = "INPUT"%string) by reflexivity.
  split; [exact Hin|].
  destruct (ignored_key_event_mutates_nothing
              Vec3.normalizeExact e w (or_intror (or_introl Hin)))
    as (_ & Hup & _ & _ & _ & _ & _ & _ & _ & Hdown).
  split; [|exact Hup].
  apply Hdown. simpl. discriminate.
Defined.

(** C9 as first stated fails at the space bar: it is not in [keyMap], yet
    its key-down resets the zoomed camera: the [switch] of the listener calls [reset] before [keyCamera]
    reaches its guard. *)
Lemma keydown_space_mutates_camera :
  (keyMap (key spaceKey) = None \/ tagName spaceKey = "INPUT"%string
   \/ (key spaceKey = "r"%string /\ ctrlKey spaceKey = true)) /\
  distance (camera (zoomedWorld Vec3.normalizeExact)) = 2 /\
  distance (camera (keydown Vec3.normalizeExact spaceKey
                            (zoomedWorld Vec3.normalizeExact))) = 1 /\
  camera (keydown Vec3.normalizeExact spaceKey
                  (zoomedWorld Vec3.normalizeExact))
  <> camera (zoomedWorld Vec3.normalizeExact).
Proof.
  assert (H2 : distance (camera (zoomedWorld Vec3.normalizeExact)) = 2).
  { change (distance (camera (zoomedWorld Vec3.normalizeExact)))
      with (clamp ((2000 * ZOOM_SPEED + 1) * 1) 0.1 100).
    replace ((2000 * ZOOM_SPEED + 1) * 1) with 2 by (unfold ZOOM_SPEED; lra).
    apply clamp_inside. lra. }
  assert (H1 : distance (camera (keydown Vec3.normalizeExact spaceKey
                                         (zoomedWorld Vec3.normalizeExact)))
               = 1) by reflexivity.
  split; [left; reflexivity|].
  split; [exact H2|]. split; [exact H1|].
  intros Heq. rewrite Heq in H1. rewrite H1 in H2. lra.
Qed.

(** The same key-down with the focus in an input field resets the camera
    as well. *)
Lemma keydown_space_in_input_mutates_camera :
  tagName spaceKeyInInput = "INPUT"%string /\
  distance (camera (keydown Vec3.normalizeExact spaceKeyInInput
                            (zoomedWorld Vec3.normalizeExact))) = 1.
Proof. split; reflexivity. Qed.

(** * Instances of the further properties *)

Lemma default_camera_ranges :
  positionDerived (Camera_new defaults) /\
  elevationInRange (Camera_new defaults) /\
  distanceInRange (Camera_new defaults) /\
  fovInRange (Camera_new defaults).
Proof.
  pose proof elevationLimit_pos. pose proof defaults_fov_in_range.
  unfold elevationInRange, distanceInRange, fovInRange.
  repeat split; simpl in *; lra.
Qed.

Lemma clamp_inverted_bounds_witness : 1 <= 2 /\ clamp 5 2 1 = 2.
Proof.
  assert (H : 1 <= 2) by lra.
  split; [exact H | exact (clamp_inverted_bounds 5 2 1 H)].
Defined.

Lemma clamp_monotone_idempotent_witness :
  1 <= 20 /\ clamp 1 0 10 <= clamp 20 0 10.
Proof.
  assert (H : 1 <= 20) by lra.
  split; [exact H | exact (proj1 (clamp_monotone_idempotent 1 20 0 10 H))].
Defined.

Lemma adjFOV_changes_only_fov_witness :
  positionDerived (Camera_new defaults) /\
  fovInRange (adjFOV 0.1 (Camera_new defaults)).
Proof.
  assert (H : positionDerived (Camera_new defaults)) by reflexivity.
  split; [exact H|].
  exact (proj2 (adjFOV_changes_only_fov 0.1 (Camera_new defaults) H)).
Defined.

Lemma zero_delta_calls_are_noops_witness :
  orbit 0 0 (Camera_new defaults) = Camera_new defaults /\
  zoom 0 (Camera_new defaults) = Camera_new defaults.
Proof.
  destruct default_camera_ranges as (Hp & He & Hd & Hf).
  destruct (zero_delta_calls_are_noops
              Vec3.normalizeExact (Camera_new defaults) Hp He Hd Hf)
    as (Ho & _ & Hz & _).
  split; [exact Ho | exact Hz].
Defined.

Lemma opposing_keys_cancel_witness :
  let w :=
    keydown Vec3.normalizeExact
            (mkEvent 0 0 0 0 "ArrowRight" "BODY" false false)
            (keydown Vec3.normalizeExact
                     (mkEvent 0 0 0 0 "ArrowLeft" "BODY" false false)
                     initialWorld) in
  keyOrbit w = true /\
  opposingKeysEqual (keyState w) /\
  keyFOVWithoutZoom w = false /\
  camera (handleInputs Vec3.normalizeExact 1 w) = camera w.
Proof.
  intros w.
  destruct default_camera_ranges as (Hp & He & Hd & Hf).
  assert (Hk : opposingKeysEqual (keyState w)) by (repeat split).
  assert (Hn : keyFOVWithoutZoom w = false) by reflexivity.
  split; [reflexivity | split; [exact Hk | split; [exact Hn|]]].
  exact (opposing_keys_cancel Vec3.normalizeExact 1 w Hp He Hd Hf Hk Hn).
Defined.

Lemma every_call_keeps_pose_ranges_witness :
  elevationInRange (orbit 0 400 (Camera_new defaults)) /\
  fovInRange (orbit 0 400 (Camera_new defaults)).
Proof.
  destruct default_camera_ranges as (Hp & He & Hd & Hf).
  destruct (every_call_keeps_pose_ranges
              Vec3.normalizeExact (CallOrbit 0 400)
              (Camera_new defaults) He Hf)
    as (Hel & Hfov & _).
  split; [exact Hel | exact Hfov].
Defined.

Lemma handleInputs_frame_and_calls_witness :
  handleInputs Vec3.normalizeExact 1 initialWorld = initialWorld.
Proof.
  destruct (handleInputs_frame_and_calls Vec3.normalizeExact 1 initialWorld)
    as (_ & _ & _ & _ & _ & _ & _ & _ & _ & Hnone).
  apply Hnone. reflexivity.
Defined.

Lemma idle_tick_is_noop_witness :
  let inputs :=
    [KeyDown (mkEvent 0 0 0 0 "ArrowLeft" "BODY" false false);
     Frame 1;
     KeyUp (mkEvent 0 0 0 0 "ArrowLeft" "BODY" false false)] in
  handleInputs Vec3.normalizeExact 1
               (run Vec3.normalizeExact inputs initialWorld)
  = run Vec3.normalizeExact inputs initialWorld.
Proof.
  intros inputs.
  apply (idle_tick_is_noop Vec3.normalizeExact inputs 1).
  repeat split.
Defined.

Lemma press_then_move_witness :
  calls (mousemove Vec3.normalizeExact
                   (mkEvent 0 15 18 0 "" "CANVAS" false false)
                   (mousedown Vec3.normalizeExact
                              (mkEvent 0 10 20 0 "" "CANVAS" false false)
                              initialWorld))
  = [] ++ [] ++ [CallOrbit (15 - 10) (18 - 20)] ++ [].
Proof.
  apply (press_then_move Vec3.normalizeExact
                         (mkEvent 0 10 20 0 "" "CANVAS" false false)
                         (mkEvent 0 15 18 0 "" "CANVAS" false false)
                         initialWorld).
  split; reflexivity.
Defined.

Lemma release_ends_gesture_witness :
  let down := mkEvent 2 10 20 0 "" "CANVAS" false false in
  let up := mkEvent 2 30 40 0 "" "CANVAS" false false in
  let move := mkEvent 0 50 60 0 "" "CANVAS" false false in
  let w' := mouseup up (mousedown Vec3.normalizeExact down initialWorld) in
  calls (mousemove Vec3.normalizeExact move w') = calls w'.
Proof.
  intros down up move w'.
  assert (Hidle : orbitActive (state initialWorld) = false
                  /\ panActive (state initialWorld) = false)
    by (split; reflexivity).
  assert (Hsame : button up = button down) by reflexivity.
  destruct (release_ends_gesture Vec3.normalizeExact down up move
                                 initialWorld Hidle Hsame)
    as (_ & _ & Hcalls & _).
  exact Hcalls.
Defined.

Lemma drag_deltas_are_incremental_witness :
  let w :=
    mousedown Vec3.normalizeExact
              (mkEvent 0 10 20 0 "" "CANVAS" false false) initialWorld in
  let e1 := mkEvent 0 25 33 0 "" "CANVAS" false false in
  let e2 := mkEvent 0 40 20 0 "" "CANVAS" false false in
  orbitActive (state w) = true /\
  panActive (state w) = false /\
  calls (mousemove Vec3.normalizeExact e2 (mousemove Vec3.normalizeExact e1 w))
  = calls w ++ [CallOrbit (25 - lastX (state w)) (33 - lastY (state w));
                CallOrbit (40 - 25) (20 - 33)].
Proof.
  intros w e1 e2.
  assert (Ho : orbitActive (state w) = true) by reflexivity.
  assert (Hp : panActive (state w) = false) by reflexivity.
  split; [exact Ho | split; [exact Hp|]].
  exact (proj1 (drag_deltas_are_incremental
                  Vec3.normalizeExact e1 e2 w Ho Hp)).
Defined.

Lemma key_event_writes_one_direction_witness :
  let e := mkEvent 0 0 0 0 "ArrowUp" "BODY" false false in
  keyHeld (BOrbit OUp) (keyState (keyCamera e true initialWorld)) = true /\
  keyHeld (BPan PLeft) (keyState (keyCamera e true initialWorld))
  = keyHeld (BPan PLeft) (keyState initialWorld).
Proof.
  intros e.
  assert (Hrec : keyIgnored e = false) by reflexivity.
  assert (Hmap : keyMap (key e) = Some (BOrbit OUp)) by reflexivity.
  destruct (key_event_writes_one_direction
              Vec3.normalizeExact e true (BOrbit OUp) initialWorld Hrec Hmap)
    as (Hset & Hother & _).
  split; [exact Hset|].
  apply Hother. discriminate.
Defined.

Lemma ignored_keyup_leaves_key_held_witness :
  let down := mkEvent 0 0 0 0 "f" "BODY" false false in
  let up := mkEvent 0 0 0 0 "f" "INPUT" false false in
  let w' := keyup up (keydown Vec3.normalizeExact down initialWorld) in
  keyIgnored up = true /\
  keyHeld (BZoom ZIn) (keyState w') = true /\
  keyZoom w' || keyFOV w' || keyFOVWithoutZoom w' = true.
Proof.
  intros down up w'.
  assert (Hrec : keyIgnored down = false) by reflexivity.
  assert (Hmap : keyMap (key down) = Some (BZoom ZIn)) by reflexivity.
  assert (Hign : keyIgnored up = true) by reflexivity.
  split; [exact Hign|].
  exact (ignored_keyup_leaves_key_held
           Vec3.normalizeExact down up (BZoom ZIn) initialWorld
           Hrec Hmap Hign).
Defined.

Lemma other_key_reclassifies_zoom_witness :
  let w :=
    keydown Vec3.normalizeExact
            (mkEvent 0 0 0 0 "f" "BODY" false false) initialWorld in
  let e := mkEvent 0 0 0 0 "ArrowUp" "BODY" false true in
  keyZoom w = true /\
  keyZoom (keyCamera e true w) = false /\
  keyFOV (keyCamera e true w) = true.
Proof.
  intros w e.
  assert (Hrec : keyIgnored e = false) by reflexivity.
  assert (Hmap : keyMap (key e) = Some (BOrbit OUp)) by reflexivity.
  assert (Hheld : z_in (ks_zoom (keyState w)) || z_out (ks_zoom (keyState w))
                  = true) by reflexivity.
  destruct (other_key_reclassifies_zoom
              e true (BOrbit OUp) w Hrec Hmap I Hheld)
    as (_ & Hz & Hf & _).
  split; [reflexivity | split; [exact Hz | exact Hf]].
Defined.

Lemma plain_reset_restores_initial_camera_witness :
  reset false false (zoom 3 (adjFOV 0.2 (Camera_new defaults)))
  = Camera_new defaults.
Proof.
  apply plain_reset_restores_initial_camera; reflexivity.
Defined.

Lemma zoom_direction_witness :
  distance (Camera_new defaults)
  <= distance (zoom 0.5 (Camera_new defaults))
  <= far (Camera_new defaults).
Proof.
  destruct default_camera_ranges as (_ & _ & Hd & _).
  assert (H0 : 0 <= distance (Camera_new defaults)) by (simpl; lra).
  apply (proj1 (zoom_direction 0.5 (Camera_new defaults) Hd H0)). lra.
Defined.

(** * The scenario arithmetic in binary64

    The two numeric scenarios evaluate to the same values in IEEE 754
    double precision, the arithmetic of a JavaScript [Number]:
    [0 - 100 * 0.005] is [-0.5] and [(0.1 + 1) * 10] is [11]. *)

#[local] Set Warnings "-inexact-float".

Remark orbit_scenario_binary64 :
  PrimFloat.eqb (0 - 100 * 0.005)%float (-0.5)%float = true.
Proof. vm_compute. reflexivity. Qed.

Remark zoom_scenario_binary64 :
  PrimFloat.eqb ((0.1 + 1) * 10)%float 11%float = true
  /\ PrimFloat.eqb ((-1 + 1) * 11)%float 0%float = true.
Proof. split; vm_compute; reflexivity. Qed.
